(** * Plugin discovery and hook aggregation ([src/framework/plugin.ts])

    A shallow embedding of the plugin layer: the name matcher
    ([parsePluginName]), the driver factory ([create]), the manifest
    scanner ([__doLoadAllFromPackageJson]) and the two hook aggregators,
    followed by the properties the specification states about them.

    JavaScript effects are written out explicitly.  A computation is a
    function from the program state to an outcome and a new state; it may
    return, throw, or end the process ([fatal]).  The closure variables of
    [create] live in a store of cells, because the driver creator and every
    driver it returns share them. *)

From Stdlib Require Import String Ascii List Bool DecimalString.
From stdpp Require Import base option list strings gmap.
Import ListNotations.
Open Scope string_scope.
Open Scope list_scope.
Set Warnings "-register-all".

(** ** Strings and the two regular expressions *)

(** A string is a sequence of code units; the model carries the code units
    below 256, one [ascii] each.  Of the four line terminators that [.]
    refuses (LF, CR, U+2028 and U+2029) only the first two fall in this
    range. *)
Definition LF : ascii := "010"%char.
Definition CR : ascii := "013"%char.
Definition quote : string := String "034"%char EmptyString.

Definition is_line_terminator (c : ascii) : bool :=
  Ascii.eqb c LF || Ascii.eqb c CR.

(** A run of literal characters at the current position: the input left
    after them, or failure. *)
Fixpoint match_literal (lit s : string) : option string :=
  match lit, s with
  | EmptyString, _ => Some s
  | String a lit', String b s' =>
      if Ascii.eqb a b then match_literal lit' s' else None
  | String _ _, EmptyString => None
  end.

(** [.+] is greedy and nothing follows it in either pattern, so it takes
    the longest run of characters that are not line terminators; the match
    fails when that run is empty. *)
Fixpoint match_dots (s : string) : string :=
  match s with
  | EmptyString => EmptyString
  | String c s' =>
      if is_line_terminator c then EmptyString else String c (match_dots s')
  end.

Definition plugin_prefix : string := "pumpkins-plugin-".

(** The result of [String.prototype.match] for a regular expression without
    the [g] flag: [None] for [null], otherwise the array holding the matched
    text followed by the capture groups.  [^] (no [m] flag) pins the match to
    the start of the input. *)
Definition RegExpMatchArray := list string.

(** [/^pumpkins-plugin-.+/] *)
Definition match_plugin_dep (s : string) : option RegExpMatchArray :=
  match match_literal plugin_prefix s with
  | None => None
  | Some rest =>
      match match_dots rest with
      | EmptyString => None
      | run => Some [plugin_prefix +:+ run]
      end
  end.

(** [/^pumpkins-plugin-(.+)/] *)
Definition match_plugin_name (s : string) : option RegExpMatchArray :=
  match match_literal plugin_prefix s with
  | None => None
  | Some rest =>
      match match_dots rest with
      | EmptyString => None
      | run => Some [plugin_prefix +:+ run; run]
      end
  end.

(** [truthy v]: [v] is an object (an array, a function) and not [null] or
    [undefined].  It is the truthiness of a match result and the test
    [v !== undefined] on a variable that holds a function or nothing. *)
Definition truthy {A} (v : option A) : bool :=
  match v with Some _ => true | None => false end.

(** [parsePluginName]: [None] stands for [null]. *)
Definition parsePluginName (packageName : string) : option string :=
  let matchResult := match_plugin_name packageName in
  match matchResult with
  | None => None
  | Some matchResult =>
      let pluginName := matchResult !! 1 in
      pluginName
  end.

(** ** The manifest: parsed JSON *)

(** What reading [package.json] as JSON yields.  An object lists its own
    properties in the order [Object.keys] enumerates them; for keys that are
    not array indices, as every plugin identifier, that is the order in which
    the document declares them. *)
Inductive Json :=
| JNull
| JBool (b : bool)
| JNumber (literal : string)
| JString (s : string)
| JArray (items : list Json)
| JObject (properties : list (string * Json)).

Fixpoint lookup_property (key : string) (props : list (string * Json)) : option Json :=
  match props with
  | [] => None
  | (k, v) :: props' => if String.eqb k key then Some v else lookup_property key props'
  end.

(** [value.dependencies] under optional chaining: [None] stands for
    [undefined], which is what every value other than an object holding that
    property gives. *)
Definition get_dependencies (packageJson : Json) : option Json :=
  match packageJson with
  | JObject props => lookup_property "dependencies" props
  | _ => None
  end.

(** [v ?? {}] *)
Definition or_empty_object (v : option Json) : Json :=
  match v with
  | None | Some JNull => JObject []
  | Some v => v
  end.

Definition index_keys (n : nat) : list string :=
  map (fun i => NilEmpty.string_of_uint (Nat.to_uint i)) (seq 0 n).

(** [Object.keys]: the own enumerable string keys.  Strings and arrays have
    their indices as keys; numbers and booleans have none. *)
Definition Object_keys (v : Json) : list string :=
  match v with
  | JObject props => map fst props
  | JArray items => index_keys (length items)
  | JString s => index_keys (String.length s)
  | JNull | JBool _ | JNumber _ => []
  end.

(** ** Outcomes and the host environment *)

(** A thrown value, as its rendering in a template string. *)
Definition Error := string.

Inductive Outcome (A : Type) :=
| Returned (a : A)
| Thrown (error : Error)
| Exited (diagnostic : string).
Arguments Returned {A} a.
Arguments Thrown {A} error.
Arguments Exited {A} diagnostic.

(** What the module imports without defining it. *)
Class Host := {
  (** everything outside this module that plugin code can read and write *)
  World : Type;
  (** [Layout.Layout] *)
  Layout : Type;
  (** function values that plugins contribute as hooks *)
  Callback : Type;
  (** [NexusConfig['plugins']] *)
  NexusPlugins : Type;
  (** [stripIndent] of the package [common-tags], as a function of the
      template with its values filled in *)
  stripIndent : string -> string;
}.

(** ** Workflow hooks and runtime contributions *)

Module WorkflowHooks.
Section Types.
Context `{Host}.

(** The hooks record is a JavaScript object that the workflow definer
    mutates.  A value, as far as the hooks need it: [undefined], a function,
    an array of strings, an object with its own properties in insertion
    order, or any other value. *)
Inductive Value :=
| Undefined
| Fn (f : Callback)
| Patterns (l : list string)
| Object (props : list (string * Value))
| Other.

(** [WorkflowHooks] *)
Definition t : Type := Value.

Fixpoint lookup (key : string) (props : list (string * Value)) : option Value :=
  match props with
  | [] => None
  | (k, v) :: props' => if String.eqb k key then Some v else lookup key props'
  end.

Fixpoint store (key : string) (x : Value) (props : list (string * Value))
  : list (string * Value) :=
  match props with
  | [] => [(key, x)]
  | (k, v) :: props' =>
      if String.eqb k key then (k, x) :: props' else (k, v) :: store key x props'
  end.

Fixpoint erase (key : string) (props : list (string * Value))
  : list (string * Value) :=
  match props with
  | [] => []
  | (k, v) :: props' =>
      if String.eqb k key then erase key props' else (k, v) :: erase key props'
  end.

(** The own property [key] of a value; [None] when there is none. *)
Definition get (key : string) (v : Value) : option Value :=
  match v with
  | Object props => lookup key props
  | _ => None
  end.

(** [key in v], for own properties: the key is there, whatever it holds. *)
Definition has (key : string) (v : Value) : bool :=
  match get key v with Some _ => true | None => false end.

(** [v[key] = x] and [delete v[key]] on an object.  [None]: the statement
    throws ([v] is [undefined]) or [v] is not an object of the model. *)
Definition set (key : string) (x : Value) (v : Value) : option Value :=
  match v with
  | Object props => Some (Object (store key x props))
  | _ => None
  end.

Definition delete (key : string) (v : Value) : option Value :=
  match v with
  | Object props => Some (Object (erase key props))
  | _ => None
  end.

(** [target.k1.k2...kn = x]: the objects on the way are read, the last one
    is written.  Reading a property of a missing or [undefined] one throws. *)
Fixpoint assign (path : list string) (x : Value) (target : Value) : option Value :=
  match path with
  | [] => None
  | key :: rest =>
      match rest with
      | [] => set key x target
      | _ :: _ =>
          match get key target with
          | Some child =>
              match assign rest x child with
              | Some child' => set key child' target
              | None => None
              end
          | None => None
          end
      end
  end.

(** [delete target.k1.k2...kn] *)
Fixpoint delete_at (path : list string) (target : Value) : option Value :=
  match path with
  | [] => None
  | key :: rest =>
      match rest with
      | [] => delete key target
      | _ :: _ =>
          match get key target with
          | Some child =>
              match delete_at rest child with
              | Some child' => set key child' target
              | None => None
              end
          | None => None
          end
      end
  end.

(** What a definer can do to the object it is handed. *)
Inductive Mutation :=
| Assign (path : list string) (x : Value)
| Delete (path : list string).

Definition mutation (m : Mutation) (target : Value) : option Value :=
  match m with
  | Assign path x => assign path x target
  | Delete path => delete_at path target
  end.

Fixpoint mutate (ms : list Mutation) (target : Value) : option Value :=
  match ms with
  | [] => Some target
  | m :: ms' =>
      match mutation m target with
      | Some target' => mutate ms' target'
      | None => None
      end
  end.

End Types.
End WorkflowHooks.

Module RuntimeContributions.
Section Types.
Context `{Host}.

Record Import := { as_ : string; from : string }.

Record TypeGen := {
  fields : list (string * string);
  imports : option (list Import);
}.

Record Context_ := { typeGen : TypeGen; create : Callback }.

Record Nexus := { plugins : NexusPlugins }.

Record t := { context : option Context_; nexus : option Nexus }.

End Types.
End RuntimeContributions.

(** ** State, computations and closures *)

Section Model.
Context `{Host}.

(** Code written by a plugin author: it runs against the world.  It does
    not reach the closure variables of [create]: a registered function that
    calls the registrars of a lens it kept is outside the model. *)
Definition PluginCode (A : Type) : Type := World -> Outcome A * World.

Record WorkflowContext := { layout : Layout }.

(** A workflow definer receives the hooks object and mutates it in place;
    what it returns is ignored.  The function maps the object handed to the
    definer to that object as the call leaves it. *)
Definition WorkflowDefiner : Type :=
  WorkflowHooks.t -> WorkflowContext -> PluginCode WorkflowHooks.t.

Definition RuntimePlugin : Type := PluginCode RuntimeContributions.t.

(** The two variables [create] declares before it returns the driver
    creator.  [None] stands for [undefined]. *)
Record Slots := {
  maybeWorkflowPlugin : option WorkflowDefiner;
  maybeRuntimePlugin : option RuntimePlugin;
}.

Definition unset : Slots :=
  {| maybeWorkflowPlugin := None; maybeRuntimePlugin := None |}.

(** The program state: one cell of [Slots] per call of [create], and the
    world. *)
Record State := {
  closures : gmap nat Slots;
  world : World;
}.

Definition M (A : Type) : Type := State -> Outcome A * State.

Definition ret {A} (a : A) : M A := fun st => (Returned a, st).

Definition bind {A B} (m : M A) (k : A -> M B) : M B :=
  fun st =>
    match m st with
    | (Returned a, st') => k a st'
    | (Thrown e, st') => (Thrown e, st')
    | (Exited d, st') => (Exited d, st')
    end.

(** [try { m } catch (error) { handler }]: only a throw is caught. *)
Definition try_catch {A} (m : M A) (handler : Error -> M A) : M A :=
  fun st =>
    match m st with
    | (Thrown e, st') => handler e st'
    | r => r
    end.

(** [throw error] *)
Definition throw {A} (error : Error) : M A := fun st => (Thrown error, st).

(** Modelled from the spec: [fatal], imported from [../utils], is not part
    of the sources.  The spec has it abort the whole process with a
    diagnostic; it never returns to its caller. *)
Definition fatal {A} (message : string) : M A := fun st => (Exited message, st).

Definition run_plugin {A} (code : PluginCode A) : M A :=
  fun st =>
    let '(o, w) := code (world st) in
    (o, {| closures := closures st; world := w |}).

(** [Array.prototype.map] with an effectful callback: the elements are
    visited in index order and the first callback that does not return ends
    the traversal. *)
Fixpoint Array_map {A B} (f : A -> M B) (xs : list A) : M (list B) :=
  match xs with
  | [] => ret []
  | x :: xs' =>
      bind (f x) (fun y => bind (Array_map f xs') (fun ys => ret (y :: ys)))
  end.

(** [Array.prototype.filter] with a callback that only reads. *)
Definition Array_filter {A} (p : A -> bool) (xs : list A) : list A :=
  List.filter p xs.

Definition slots_at (env : nat) (st : State) : Slots :=
  default unset (closures st !! env).

Definition set_slots (env : nat) (s : Slots) (st : State) : State :=
  {| closures := <[env := s]> (closures st); world := world st |}.

(** ** Drivers *)

(** The loaders are methods: a third-party [create] may return any object
    of this shape, [create] below returns the ones of this module. *)
Record Driver := {
  name : string;
  extendsWorkflow : bool;
  extendsRuntime : bool;
  loadWorkflowPlugin : Layout -> M WorkflowHooks.t;
  loadRuntimePlugin : M (option RuntimeContributions.t);
}.

Definition DriverCreator : Type := string -> M Driver.

(** ** The lens and the defining function *)

(** The utilities of a lens.  [log], [run], [runSync] and [prompt] are the
    same host values in every lens; the debug channel is the one part built
    from the plugin name, and it is carried as the namespace handed to
    [pog.sub]. *)
Record Utils := { debug : string }.

(** A call of one of the two registrars of the lens. *)
Inductive Registration :=
| runtime (f : RuntimePlugin)
| workflow (f : WorkflowDefiner).

(** One run of a defining function: the registrar calls it made, in order,
    and how it ended.  The calls made before a throw are kept. *)
Record Invocation := {
  registrations : list Registration;
  completion : Outcome unit;
}.

(** A defining function sees the utilities of the lens and the world; its
    effect on the closure variables goes through the registrars only, and a
    registrar is called while the defining function runs (a lens kept for
    later is outside the model). *)
Definition Definer : Type := Utils -> World -> Invocation * World.

(** The body of a registrar: [maybeRuntimePlugin = f], [maybeWorkflowPlugin = f]. *)
Definition register (s : Slots) (r : Registration) : Slots :=
  match r with
  | runtime f =>
      {| maybeWorkflowPlugin := maybeWorkflowPlugin s; maybeRuntimePlugin := Some f |}
  | workflow f =>
      {| maybeWorkflowPlugin := Some f; maybeRuntimePlugin := maybeRuntimePlugin s |}
  end.

(** The object literal that [loadWorkflowPlugin] builds. *)
Definition default_hooks : WorkflowHooks.t :=
  WorkflowHooks.Object
    [("create", WorkflowHooks.Object []);
     ("dev", WorkflowHooks.Object [("addToSettings", WorkflowHooks.Object [])]);
     ("build", WorkflowHooks.Object []);
     ("generate", WorkflowHooks.Object [])].

(** The two loader methods of a driver made by [create]; [env] is the cell
    holding the closure variables, read when the loader is called. *)
Definition create_loadWorkflowPlugin (env : nat) (layout : Layout) : M WorkflowHooks.t :=
  fun st =>
    let hooks := default_hooks in
    match maybeWorkflowPlugin (slots_at env st) with
    | None => ret hooks st
    | Some f => run_plugin (f hooks {| layout := layout |}) st
    end.

Definition create_loadRuntimePlugin (env : nat) : M (option RuntimeContributions.t) :=
  fun st =>
    match maybeRuntimePlugin (slots_at env st) with
    | None => ret None st
    | Some f => bind (run_plugin f) (fun c => ret (Some c)) st
    end.

(** The arrow function [create] returns. *)
Definition driverCreator (definer : Definer) (env : nat) : DriverCreator :=
  fun pluginName st =>
    let '(call, w) :=
      definer {| debug := "plugin:" +:+ pluginName |} (world st) in
    let slots := fold_left register (registrations call) (slots_at env st) in
    let st' := {| closures := <[env := slots]> (closures st); world := w |} in
    match completion call with
    | Returned _ =>
        (Returned
           {| name := pluginName;
              extendsWorkflow := truthy (maybeWorkflowPlugin slots);
              extendsRuntime := truthy (maybeRuntimePlugin slots);
              loadWorkflowPlugin := create_loadWorkflowPlugin env;
              loadRuntimePlugin := create_loadRuntimePlugin env |},
         st')
    | Thrown e => (Thrown e, st')
    | Exited d => (Exited d, st')
    end.

(** The cell a call of [create] allocates: one that is not in use. *)
Definition fresh_env (st : State) : nat := fresh (dom (closures st)).

(** [create]: a fresh cell for the two variables, both unset, and the
    driver creator closed over it.  The defining function is not run. *)
Definition create (definer : Definer) : M DriverCreator :=
  fun st =>
    let env := fresh_env st in
    (Returned (driverCreator definer env), set_slots env unset st).

End Model.

Notation "'let*' x ':=' m 'in' k" := (bind m (fun x => k))
  (at level 10, x name, m at level 100, k at level 200).

(** ** Plugin packages *)

Module PluginPackage.
Section Types.
Context `{Host}.

(** The [create] property of a resolved module, as [typeof] sees it. *)
Inductive Export :=
| NotAFunction
| Function (f : DriverCreator).

(** What [require] gives.  The declared type is an unchecked annotation on
    a value of type [any]: the module may resolve to [null] or [undefined],
    and reading a property of these throws the [TypeError] carried here;
    any other value has a [create] property, [undefined] when it is
    missing.  (Property getters that throw are outside the model.) *)
Inductive t :=
| Nullish (type_error : Error)
| Exporting (create : Export).

(** [SomePlugin.create] *)
Definition read_create (SomePlugin : t) : M Export :=
  match SomePlugin with
  | Nullish type_error => throw type_error
  | Exporting create => ret create
  end.

End Types.
End PluginPackage.

(** ** Diagnostics *)

Definition newline : string := String LF EmptyString.

Fixpoint spaces (n : nat) : string :=
  match n with
  | O => EmptyString
  | S n' => String " " (spaces n')
  end.

(** The template literals of the diagnostics with their values filled in,
    white space as in the source. *)
Definition import_error_template (pluginName : string) (error : Error) : string :=
  newline +:+ spaces 8 +:+ "An error occured while importing the plugin "
  +:+ pluginName +:+ ":" +:+ newline
  +:+ newline
  +:+ spaces 8 +:+ error +:+ newline
  +:+ spaces 6.

Definition load_error_template (pluginName : string) (error : Error) : string :=
  newline +:+ spaces 10 +:+ "An error occured while loading the plugin "
  +:+ quote +:+ pluginName +:+ quote +:+ ":" +:+ newline
  +:+ newline
  +:+ spaces 10 +:+ error +:+ newline
  +:+ spaces 8.

Definition workflow_error_template (driverName : string) (error : Error) : string :=
  newline +:+ spaces 10
  +:+ "Error while trying to load the workflow component of plugin "
  +:+ quote +:+ driverName +:+ quote +:+ ":" +:+ newline
  +:+ spaces 10 +:+ newline
  +:+ spaces 10 +:+ error +:+ newline
  +:+ spaces 8.

Definition runtime_error_template (driverName : string) (error : Error) : string :=
  newline +:+ spaces 10
  +:+ "Error while trying to load the runtime component of plugin "
  +:+ quote +:+ driverName +:+ quote +:+ ":" +:+ newline
  +:+ spaces 10 +:+ newline
  +:+ spaces 10 +:+ error +:+ newline
  +:+ spaces 8.

Section Diagnostics.
Context `{Host}.

(** The messages handed to [fatal]: four are tagged with [stripIndent], one
    is a plain template literal. *)
Definition import_error_message (pluginName : string) (error : Error) : string :=
  stripIndent (import_error_template pluginName error).

Definition no_create_message (pluginName : string) : string :=
  "The plugin " +:+ quote +:+ pluginName +:+ quote
  +:+ " you are attempting to use does not export a "
  +:+ quote +:+ "create" +:+ quote +:+ " value.".

Definition load_error_message (pluginName : string) (error : Error) : string :=
  stripIndent (load_error_template pluginName error).

Definition workflow_error_message (driverName : string) (error : Error) : string :=
  stripIndent (workflow_error_template driverName error).

Definition runtime_error_message (driverName : string) (error : Error) : string :=
  stripIndent (runtime_error_template driverName error).

End Diagnostics.

(** The non-null assertion [!] is erased before the program runs; where a
    [null] would get through, a template renders it as the text below. *)
Definition non_null (v : option string) : string := default "null" v.

(** ** Loading the plugins of a manifest *)

Section Loading.
Context `{Host}.

(** Node's module loader. *)
Variable require : string -> M PluginPackage.t.

(** A promise is carried as the computation that settles it: a return
    fulfils it, a throw rejects it, and [await] runs it. *)
Definition Promise (A : Type) : Type := M A.
Definition await {A} (p : Promise A) : M A := p.

(** [fs.read('package.json', 'json')] and
    [fs.readAsync('package.json', 'json')]; [None] stands for [undefined],
    the result for a file that does not exist. *)
Variable fs_read : M (option Json).
Variable fs_readAsync : Promise (option Json).

(** The callback of the [map] in [__doLoadAllFromPackageJson].  The test
    of [typeof SomePlugin.create] reads the property outside any [try]. *)
Definition instantiate (depName : string) : M Driver :=
  let pluginName := non_null (parsePluginName depName) in
  let* SomePlugin :=
    try_catch (require depName)
      (fun error => fatal (import_error_message pluginName error)) in
  let* SomePlugin_create := PluginPackage.read_create SomePlugin in
  match SomePlugin_create with
  | PluginPackage.NotAFunction => fatal (no_create_message pluginName)
  | PluginPackage.Function SomePlugin_create =>
      let* instantiatedPlugin :=
        try_catch (SomePlugin_create pluginName)
          (fun error => fatal (load_error_message pluginName error)) in
      ret instantiatedPlugin
  end.

Definition __doLoadAllFromPackageJson (packageJson : option Json) : M (list Driver) :=
  match packageJson with
  | None => ret []
  | Some packageJson =>
      let deps := or_empty_object (get_dependencies packageJson) in
      let depNames := Object_keys deps in
      if Nat.eqb (length depNames) 0 then ret [] else
      let pumpkinsPluginDepNames :=
        Array_filter (fun depName => truthy (match_plugin_dep depName)) depNames in
      if Nat.eqb (length pumpkinsPluginDepNames) 0 then ret [] else
      let* instantiatedPlugins := Array_map instantiate pumpkinsPluginDepNames in
      ret instantiatedPlugins
  end.

Definition loadAllFromPackageJson : Promise (list Driver) :=
  let* packageJson := await fs_readAsync in
  __doLoadAllFromPackageJson packageJson.

Definition loadAllFromPackageJsonSync : M (list Driver) :=
  let* packageJson := fs_read in
  __doLoadAllFromPackageJson packageJson.

(** ** Aggregating hooks and contributions *)

Definition loadAllWorkflowPluginsFromPackageJson (layout : Layout)
  : Promise (list WorkflowHooks.t) :=
  let* plugins := await loadAllFromPackageJson in
  let* workflowHooks :=
    Array_map
      (fun driver =>
         let* workflowComponent :=
           try_catch (loadWorkflowPlugin driver layout)
             (fun error => fatal (workflow_error_message (name driver) error)) in
         ret workflowComponent)
      (Array_filter (fun driver => extendsWorkflow driver) plugins) in
  ret workflowHooks.

(** The elements are what the runtime loaders returned: the non-null
    assertion on them is erased, so [None] ([undefined]) would get through. *)
Definition __doLoadAllRuntimePluginsFromPackageJson (plugins : list Driver)
  : M (list (option RuntimeContributions.t)) :=
  let* workflowHooks :=
    Array_map
      (fun driver =>
         let* runtimeContributions :=
           try_catch (loadRuntimePlugin driver)
             (fun error => fatal (runtime_error_message (name driver) error)) in
         ret runtimeContributions)
      (Array_filter (fun driver => extendsRuntime driver) plugins) in
  ret workflowHooks.

Definition loadAllRuntimePluginsFromPackageJson
  : Promise (list (option RuntimeContributions.t)) :=
  let* plugins := await loadAllFromPackageJson in
  __doLoadAllRuntimePluginsFromPackageJson plugins.

Definition loadAllRuntimePluginsFromPackageJsonSync
  : M (list (option RuntimeContributions.t)) :=
  let* plugins := loadAllFromPackageJsonSync in
  __doLoadAllRuntimePluginsFromPackageJson plugins.

End Loading.

(** * Vocabulary of the statements *)

Fixpoint no_line_terminator (s : string) : bool :=
  match s with
  | EmptyString => true
  | String c s' => negb (is_line_terminator c) && no_line_terminator s'
  end.

(** Where [.+] stops: at the end of the input or in front of a line
    terminator. *)
Definition at_line_end (rest : string) : Prop :=
  match rest with
  | EmptyString => True
  | String c _ => is_line_terminator c = true
  end.

(** The dependency identifiers of a manifest that pass the filter, in the
    order [Object.keys] lists them. *)
Definition pumpkinsPluginDepNames (packageJson : Json) : list string :=
  Array_filter (fun depName => truthy (match_plugin_dep depName))
    (Object_keys (or_empty_object (get_dependencies packageJson))).

(** A manifest that is absent, or whose [dependencies] has no key. *)
Definition no_dependency_entries (packageJson : option Json) : Prop :=
  match packageJson with
  | None => True
  | Some packageJson =>
      Object_keys (or_empty_object (get_dependencies packageJson)) = []
  end.

Section Vocabulary.
Context `{Host}.

(** [visits f xs st ys st']: from [st], the callback [f] returns on every
    element of [xs] in turn, [ys] are its results in the same order and [st']
    is the state it leaves. *)
Inductive visits {A B} (f : A -> M B) : list A -> State -> list B -> State -> Prop :=
| visits_nil st : visits f [] st [] st
| visits_cons x xs st y st1 ys st2 :
    f x st = (Returned y, st1) ->
    visits f xs st1 ys st2 ->
    visits f (x :: xs) st (y :: ys) st2.

(** The last registration of each kind in a run of a defining function. *)
Fixpoint last_workflow (rs : list Registration) : option WorkflowDefiner :=
  match rs with
  | [] => None
  | r :: rs' =>
      match last_workflow rs' with
      | Some f => Some f
      | None => match r with workflow f => Some f | runtime _ => None end
      end
  end.

Fixpoint last_runtime (rs : list Registration) : option RuntimePlugin :=
  match rs with
  | [] => None
  | r :: rs' =>
      match last_runtime rs' with
      | Some f => Some f
      | None => match r with runtime f => Some f | workflow _ => None end
      end
  end.

(** The state an application of a driver creator leaves. *)
Definition applied (definer : Definer) (env : nat) (pluginName : string) (st : State)
  : State :=
  let '(call, w) := definer {| debug := "plugin:" +:+ pluginName |} (world st) in
  {| closures :=
       <[env := fold_left register (registrations call) (slots_at env st)]> (closures st);
     world := w |}.

(** Whether a run of a defining function called a registrar. *)
Definition registers_workflow (rs : list Registration) : bool :=
  existsb (fun r => match r with workflow _ => true | runtime _ => false end) rs.

Definition registers_runtime (rs : list Registration) : bool :=
  existsb (fun r => match r with runtime _ => true | workflow _ => false end) rs.


(** Plugin code that is a function of its arguments alone: it neither reads
    nor changes the world. *)
Definition pure {A} (code : PluginCode A) : Prop :=
  exists o, forall w, code w = (o, w).

(** The part of [loadAllWorkflowPluginsFromPackageJson] that follows the
    loading of the drivers. *)
Definition workflow_aggregation (layout : Layout) (plugins : list Driver)
  : M (list WorkflowHooks.t) :=
  Array_map
    (fun driver =>
       let* workflowComponent :=
         try_catch (loadWorkflowPlugin driver layout)
           (fun error => fatal (workflow_error_message (name driver) error)) in
       ret workflowComponent)
    (Array_filter (fun driver => extendsWorkflow driver) plugins).


(** The four phase keys and [dev.addToSettings] are own properties. *)
Definition has_phase_keys (hooks : WorkflowHooks.t) : bool :=
  WorkflowHooks.has "create" hooks
  && WorkflowHooks.has "dev" hooks
  && WorkflowHooks.has "generate" hooks
  && WorkflowHooks.has "build" hooks
  && match WorkflowHooks.get "dev" hooks with
     | Some dev => WorkflowHooks.has "addToSettings" dev
     | None => false
     end.

Definition phase_paths : list (list string) :=
  [["create"]; ["dev"]; ["generate"]; ["build"]; ["dev"; "addToSettings"]].

(** A mutation that the type [WorkflowHooks] admits removes none of its
    required properties: it does not delete one of them, and what it assigns
    to [dev] has an [addToSettings]. *)
Definition keeps_keys (m : WorkflowHooks.Mutation) : bool :=
  match m with
  | WorkflowHooks.Delete path => negb (bool_decide (path ∈ phase_paths))
  | WorkflowHooks.Assign path x =>
      if bool_decide (path = ["dev"]) then WorkflowHooks.has "addToSettings" x else true
  end.

(** A workflow definer that works on the hooks object by assignments and
    deletions of properties, none of which removes a required property. *)
Definition keeps_phase_keys (f : WorkflowDefiner) : Prop :=
  forall hooks context w hooks' w',
    f hooks context w = (Returned hooks', w') ->
    exists ms,
      Forall (fun m => keeps_keys m = true) ms
      /\ WorkflowHooks.mutate ms hooks = Some hooks'.

(** A driver with the loaders [create] gives for the cell [env]. *)
Definition made_by_create (env : nat) (d : Driver) : Prop :=
  loadWorkflowPlugin d = create_loadWorkflowPlugin env
  /\ loadRuntimePlugin d = create_loadRuntimePlugin env.

(** [evolves st st']: [st'] is reached from [st] by calls of [create],
    applications of driver creators and code that changes the world only
    (plugin code, the loaders). *)
Inductive evolves : State -> State -> Prop :=
| evolves_refl st : evolves st st
| evolves_create st st' definer :
    evolves st st' -> evolves st (snd (create definer st'))
| evolves_apply st st' definer env pluginName :
    evolves st st' -> evolves st (snd (driverCreator definer env pluginName st'))
| evolves_world st st' w :
    evolves st st' -> evolves st {| closures := closures st'; world := w |}.

(** A driver that an application of a driver creator on the cell [env]
    returned at some point before [st]. *)
Definition issued (d : Driver) (env : nat) (st : State) : Prop :=
  exists (definer : Definer) pluginName st0 st1,
    driverCreator definer env pluginName st0 = (Returned d, st1)
    /\ evolves st1 st.

End Vocabulary.

(** * Sample plugins and manifests *)

(** A host whose world is a counter.  Its [stripIndent] is a stand-in that
    returns the text as it is; no statement depends on it. *)
Definition sample_host : Host :=
  {| World := nat; Layout := unit; Callback := nat; NexusPlugins := unit;
     stripIndent := fun text => text |}.

Section Samples.
#[local] Existing Instance sample_host.

Definition sample_contributions : RuntimeContributions.t :=
  {| RuntimeContributions.context := None;
     RuntimeContributions.nexus := Some {| RuntimeContributions.plugins := tt |} |}.

Definition sample_producer : RuntimePlugin :=
  fun w => (Returned sample_contributions, w).

(** A workflow definer that does the given mutations on the hooks object
    and returns; a mutation that cannot be done throws. *)
Definition performing (ms : list WorkflowHooks.Mutation) : WorkflowDefiner :=
  fun hooks _ w =>
    match WorkflowHooks.mutate ms hooks with
    | Some hooks' => (Returned hooks', w)
    | None => (Thrown "TypeError", w)
    end.

(** [hooks.dev.addToSettings.watchFilePatterns = ['*.graphql']] *)
Definition watch_definer : WorkflowDefiner :=
  performing
    [WorkflowHooks.Assign ["dev"; "addToSettings"; "watchFilePatterns"]
       (WorkflowHooks.Patterns ["*.graphql"])].

(** [delete hooks.dev] *)
Definition deleting_definer : WorkflowDefiner :=
  performing [WorkflowHooks.Delete ["dev"]].

Definition throwing_definer : WorkflowDefiner :=
  fun _ _ w => (Thrown "boom", w).

(** [lens => { lens.runtime(producer) }] *)
Definition runtime_only : Definer :=
  fun _ w =>
    ({| registrations := [runtime sample_producer]; completion := Returned tt |}, w).

(** [lens => { lens.workflow(definer) }] *)
Definition workflow_only : Definer :=
  fun _ w =>
    ({| registrations := [workflow watch_definer]; completion := Returned tt |}, w).

(** A defining function that registers its workflow definer the first time
    it runs and nothing afterwards; the world counts its runs. *)
Definition workflow_once : Definer :=
  fun _ w =>
    ({| registrations := if Nat.eqb w 0 then [workflow watch_definer] else [];
        completion := Returned tt |},
     S w).

(** [lens => { lens.workflow(() => { throw 'boom' }) }] *)
Definition workflow_throwing : Definer :=
  fun _ w =>
    ({| registrations := [workflow throwing_definer]; completion := Returned tt |}, w).

(** [lens => { lens.workflow(hooks => { delete hooks.dev }) }] *)
Definition workflow_deleting : Definer :=
  fun _ w =>
    ({| registrations := [workflow deleting_definer]; completion := Returned tt |}, w).

(** [lens => { lens.workflow(() => { throw 'boom' }); lens.workflow(definer) }] *)
Definition workflow_twice : Definer :=
  fun _ w =>
    ({| registrations := [workflow throwing_definer; workflow watch_definer];
        completion := Returned tt |},
     w).

(** A defining function that registers nothing the first time it runs and
    its workflow definer afterwards; the world counts its runs. *)
Definition workflow_later : Definer :=
  fun _ w =>
    ({| registrations := if Nat.eqb w 0 then [] else [workflow watch_definer];
        completion := Returned tt |},
     S w).

(** [lens => { throw 'defective' }] *)
Definition defective : Definer :=
  fun _ w => ({| registrations := []; completion := Thrown "defective" |}, w).

Definition sample_state : State := {| closures := ∅; world := 0 |}.

(** The driver and the state that [create(runtime_only)('prisma')] gives in
    the sample state, on the cell 0. *)
Definition prisma_driver : Driver :=
  {| name := "prisma";
     extendsWorkflow := false;
     extendsRuntime := true;
     loadWorkflowPlugin := create_loadWorkflowPlugin 0;
     loadRuntimePlugin := create_loadRuntimePlugin 0 |}.

Definition prisma_state : State :=
  snd (driverCreator runtime_only 0 "prisma" sample_state).

Definition module_exporting (definer : Definer) : M PluginPackage.t :=
  let* creator := create definer in
  ret (PluginPackage.Exporting (PluginPackage.Function creator)).

(** A module loader: one plugin is not installed, one exports no [create],
    one has [module.exports = null], the others export a driver creator. *)
Definition sample_require (depName : string) : M PluginPackage.t :=
  if String.eqb depName "pumpkins-plugin-missing" then throw "Cannot find module"
  else if String.eqb depName "pumpkins-plugin-empty" then
    ret (PluginPackage.Exporting PluginPackage.NotAFunction)
  else if String.eqb depName "pumpkins-plugin-null" then
    ret (PluginPackage.Nullish "TypeError: Cannot read property 'create' of null")
  else if String.eqb depName "pumpkins-plugin-defective" then module_exporting defective
  else if String.eqb depName "pumpkins-plugin-watch" then module_exporting workflow_only
  else module_exporting runtime_only.

Definition sample_manifest : Json :=
  JObject
    [("name", JString "app");
     ("dependencies",
       JObject
         [("lodash", JString "4.17.15");
          ("pumpkins-plugin-prisma", JString "1.0.0");
          ("pumpkins-plugin-watch", JString "1.0.0")]);
     ("devDependencies", JObject [("pumpkins-plugin-dev", JString "1.0.0")])].

Definition manifest_with (dependencies : list string) : Json :=
  JObject [("dependencies", JObject (map (fun depName => (depName, JString "1.0.0")) dependencies))].

End Samples.

(** * Properties *)

(** ** The name matcher *)

Lemma append_empty (t : string) : EmptyString +:+ t = t.
Proof. reflexivity. Qed.

Lemma append_String c (s t : string) : String c s +:+ t = String c (s +:+ t).
Proof. reflexivity. Qed.

Lemma append_empty_r (s : string) : s +:+ EmptyString = s.
Proof.
  induction s as [|c s IH]; [reflexivity|].
  rewrite append_String, IH. reflexivity.
Qed.

Lemma match_literal_Some lit s rest :
  match_literal lit s = Some rest <-> s = lit +:+ rest.
Proof.
  revert s. induction lit as [|a lit IH]; intros s; simpl.
  - rewrite ?append_empty. split; congruence.
  - rewrite ?append_String. destruct s as [|b s].
    + split; discriminate.
    + destruct (Ascii.eqb_spec a b) as [->|Hab].
      * rewrite IH. split; [intros ->; reflexivity | congruence].
      * split; [discriminate | congruence].
Qed.

Lemma match_dots_clean s : no_line_terminator (match_dots s) = true.
Proof.
  induction s as [|c s IH]; simpl; [reflexivity|].
  destruct (is_line_terminator c) eqn:Hc; simpl; [reflexivity|].
  rewrite Hc. exact IH.
Qed.

Lemma match_dots_split s :
  exists rest, s = match_dots s +:+ rest /\ at_line_end rest.
Proof.
  induction s as [|c s [rest [Hs Hrest]]]; simpl.
  - exists EmptyString. split; [reflexivity | exact I].
  - destruct (is_line_terminator c) eqn:Hc.
    + exists (String c s). split; [reflexivity | exact Hc].
    + exists rest. split; [rewrite ?append_String; congruence | exact Hrest].
Qed.

Lemma match_dots_run run rest :
  no_line_terminator run = true -> at_line_end rest ->
  match_dots (run +:+ rest) = run.
Proof.
  induction run as [|c run IH]; simpl; intros Hrun Hrest.
  - rewrite ?append_empty. destruct rest as [|c rest]; simpl in *; [reflexivity|].
    rewrite Hrest. reflexivity.
  - apply andb_prop in Hrun as [Hc Hrun].
    apply negb_true_iff in Hc. rewrite Hc, IH; trivial.
Qed.

Lemma match_plugin_name_dep s :
  truthy (match_plugin_dep s) = truthy (match_plugin_name s).
Proof.
  unfold match_plugin_dep, match_plugin_name.
  destruct (match_literal plugin_prefix s) as [rest|]; [|reflexivity].
  destruct (match_dots rest); reflexivity.
Qed.

Lemma parsePluginName_run s :
  parsePluginName s =
    match match_literal plugin_prefix s with
    | None => None
    | Some rest =>
        match match_dots rest with
        | EmptyString => None
        | run => Some run
        end
    end.
Proof.
  unfold parsePluginName, match_plugin_name.
  destruct (match_literal plugin_prefix s) as [rest|]; [|reflexivity].
  destruct (match_dots rest); reflexivity.
Qed.

(** The test of the filter and [parsePluginName] agree: the source's
    "filter above guarantees". *)
Lemma filter_guarantees depName :
  truthy (match_plugin_dep depName) = truthy (parsePluginName depName).
Proof.
  rewrite match_plugin_name_dep. unfold parsePluginName, match_plugin_name.
  destruct (match_literal plugin_prefix depName) as [rest|]; [|reflexivity].
  destruct (match_dots rest); reflexivity.
Qed.

Lemma parsePluginName_Some s pluginName :
  parsePluginName s = Some pluginName <->
  exists rest,
    s = plugin_prefix +:+ pluginName +:+ rest
    /\ pluginName <> EmptyString
    /\ no_line_terminator pluginName = true
    /\ at_line_end rest.
Proof.
  rewrite parsePluginName_run. split.
  - destruct (match_literal plugin_prefix s) as [tail|] eqn:Hlit; [|discriminate].
    apply match_literal_Some in Hlit.
    destruct (match_dots_split tail) as [rest [Htail Hrest]].
    pose proof (match_dots_clean tail) as Hclean.
    destruct (match_dots tail) as [|c run] eqn:Hrun; [discriminate|].
    intros [= <-]. exists rest. repeat split; try assumption.
    + rewrite Hlit, Htail. reflexivity.
    + discriminate.
  - intros [rest [-> [Hne [Hclean Hrest]]]].
    assert (match_literal plugin_prefix (plugin_prefix +:+ pluginName +:+ rest)
            = Some (pluginName +:+ rest)) as -> by (apply match_literal_Some; reflexivity).
    rewrite match_dots_run by assumption.
    destruct pluginName; [contradiction | reflexivity].
Qed.

Lemma parsePluginName_None s :
  parsePluginName s = None <->
  forall c rest, s = plugin_prefix +:+ String c rest -> is_line_terminator c = true.
Proof.
  rewrite parsePluginName_run. split.
  - intros Hnone c rest ->.
    assert (match_literal plugin_prefix (plugin_prefix +:+ String c rest)
            = Some (String c rest)) as Hlit by (apply match_literal_Some; reflexivity).
    rewrite Hlit in Hnone. simpl in Hnone.
    destruct (is_line_terminator c); [reflexivity | discriminate].
  - intros Hall.
    destruct (match_literal plugin_prefix s) as [tail|] eqn:Hlit; [|reflexivity].
    apply match_literal_Some in Hlit.
    destruct tail as [|c tail]; [reflexivity|].
    simpl. rewrite (Hall c tail Hlit). reflexivity.
Qed.

(** C2 (amended).  [parsePluginName] is a total function.  It returns the
    text between the prefix [pumpkins-plugin-] and the first line terminator
    that follows (the end of the identifier when there is none), provided
    that text is not empty, and the no-match value otherwise.  So an
    identifier made of the prefix and a non-empty suffix without line
    terminators gives that suffix, the bare prefix is rejected, and an
    identifier that does not match is left out of the matched set without
    any error. *)
Theorem parsePluginName_spec :
  (forall packageName pluginName,
      parsePluginName packageName = Some pluginName <->
      exists rest,
        packageName = plugin_prefix +:+ pluginName +:+ rest
        /\ pluginName <> EmptyString
        /\ no_line_terminator pluginName = true
        /\ at_line_end rest)
  /\ (forall packageName,
        parsePluginName packageName = None <->
        forall c rest,
          packageName = plugin_prefix +:+ String c rest ->
          is_line_terminator c = true)
  /\ (forall suffix,
        suffix <> EmptyString -> no_line_terminator suffix = true ->
        parsePluginName (plugin_prefix +:+ suffix) = Some suffix)
  /\ parsePluginName plugin_prefix = None
  /\ parsePluginName "lodash" = None
  /\ parsePluginName "pumpkins-plugin-auth" = Some "auth"
  /\ (forall depNames depName,
        In depName
          (Array_filter (fun depName => truthy (match_plugin_dep depName)) depNames)
        <-> In depName depNames /\ parsePluginName depName <> None)
  /\ (forall (H : Host) require st,
        __doLoadAllFromPackageJson require
          (Some (JObject [("dependencies", JObject [("lodash", JString "4.17.15")])])) st
        = (Returned [], st)).
Proof.
  split; [exact parsePluginName_Some|].
  split; [exact parsePluginName_None|].
  split.
  { intros suffix Hne Hclean. apply parsePluginName_Some.
    exists EmptyString. repeat split; try assumption.
    rewrite append_empty_r. reflexivity. }
  split; [reflexivity|]. split; [reflexivity|]. split; [reflexivity|].
  split; [|reflexivity].
  intros depNames depName. unfold Array_filter. rewrite List.filter_In.
  rewrite filter_guarantees.
  destruct (parsePluginName depName); simpl; intuition congruence.
Qed.

(** C2, as stated, fails on an identifier with a line terminator after the
    prefix: [.] does not match one, so the capture stops in front of it. *)
Lemma parsePluginName_line_terminator_counterexample :
  parsePluginName (plugin_prefix +:+ String "a" (String LF "b")) = Some "a"
  /\ parsePluginName (plugin_prefix +:+ String "a" (String LF "b"))
     <> Some (String "a" (String LF "b"))
  /\ parsePluginName (plugin_prefix +:+ String LF "b") = None.
Proof. repeat split; [discriminate]. Qed.

(** ** Computations *)

Section Computations.
Context `{Host}.

Lemma bind_ret_r {A} (m : M A) st : (let* x := m in ret x) st = m st.
Proof. unfold bind, ret. destruct (m st) as [[a|e|d] st']; reflexivity. Qed.

Lemma bind_Returned {A B} (m : M A) (k : A -> M B) st a st' :
  m st = (Returned a, st') -> (let* x := m in k x) st = k a st'.
Proof. unfold bind. intros ->. reflexivity. Qed.


Lemma bind_Thrown {A B} (m : M A) (k : A -> M B) st e st' :
  m st = (Thrown e, st') -> (let* x := m in k x) st = (Thrown e, st').
Proof. unfold bind. intros ->. reflexivity. Qed.

Lemma bind_ext {A B} (m : M A) (k k' : A -> M B) st :
  (forall a st', k a st' = k' a st') ->
  (let* x := m in k x) st = (let* x := m in k' x) st.
Proof.
  intros Hk. unfold bind. destruct (m st) as [[a|e|d] st']; auto.
Qed.

Lemma Array_map_Returned {A B} (f : A -> M B) xs st ys st' :
  Array_map f xs st = (Returned ys, st') <-> visits f xs st ys st'.
Proof.
  split.
  - revert st ys. induction xs as [|x xs IH]; simpl; intros st ys Hrun.
    + unfold ret in Hrun. injection Hrun as <- <-. constructor.
    + unfold bind at 1 in Hrun.
      destruct (f x st) as [[y|e|d] st1] eqn:Hx; try discriminate.
      unfold bind at 1 in Hrun.
      destruct (Array_map f xs st1) as [[ys'|e|d] st2] eqn:Hxs; try discriminate.
      unfold ret in Hrun. injection Hrun as <- <-.
      econstructor; eauto.
  - induction 1 as [st|x xs st y st1 ys st2 Hx _ IH]; simpl; [reflexivity|].
    rewrite (bind_Returned _ _ _ _ _ Hx), (bind_Returned _ _ _ _ _ IH).
    reflexivity.
Qed.

Lemma Array_map_ext {A B} (f g : A -> M B) xs st :
  (forall x st, In x xs -> f x st = g x st) ->
  Array_map f xs st = Array_map g xs st.
Proof.
  revert st. induction xs as [|x xs IH]; simpl; intros st Hfg; [reflexivity|].
  unfold bind at 1 3. rewrite Hfg by (left; reflexivity).
  destruct (g x st) as [[y|e|d] st1]; try reflexivity.
  unfold bind. rewrite IH by (intros; apply Hfg; right; assumption).
  reflexivity.
Qed.

(** The traversal of a concatenation is the traversal of its parts, one
    after the other. *)
Lemma Array_map_app {A B} (f : A -> M B) xs1 xs2 st :
  Array_map f (xs1 ++ xs2) st =
  (let* ys1 := Array_map f xs1 in
   let* ys2 := Array_map f xs2 in
   ret (ys1 ++ ys2)) st.
Proof.
  revert st. induction xs1 as [|x xs1 IH]; simpl; intros st.
  - cbv beta iota delta [bind ret].
    destruct (Array_map f xs2 st) as [[ys2|e|d] st1]; reflexivity.
  - specialize (IH). cbv beta iota delta [bind ret] in *.
    destruct (f x st) as [[y|e|d] st1]; try reflexivity.
    rewrite IH.
    destruct (Array_map f xs1 st1) as [[ys1|e|d] st2]; try reflexivity.
    destruct (Array_map f xs2 st2) as [[ys2|e|d] st3]; reflexivity.
Qed.


(** Element by element, each result comes from the input at the same
    position. *)
Lemma visits_Forall2 {A B} (f : A -> M B) xs st ys st' :
  visits f xs st ys st' ->
  Forall2 (fun x y => exists s s', f x s = (Returned y, s')) xs ys.
Proof. induction 1; constructor; eauto. Qed.



End Computations.

(** Run past a computation whose result is known. *)
Ltac continue_with H := rewrite (bind_Returned _ _ _ _ _ H).

(** ** The manifest scanner *)

Lemma index_key_no_match i :
  truthy (match_plugin_dep (NilEmpty.string_of_uint (Nat.to_uint i))) = false.
Proof. destruct (Nat.to_uint i); reflexivity. Qed.

Lemma index_keys_no_match n :
  Array_filter (fun depName => truthy (match_plugin_dep depName)) (index_keys n) = [].
Proof.
  unfold index_keys, Array_filter. induction (seq 0 n) as [|i l IH]; simpl; [reflexivity|].
  rewrite index_key_no_match. exact IH.
Qed.

Lemma pumpkinsPluginDepNames_keys packageJson depName :
  In depName (pumpkinsPluginDepNames packageJson) ->
  In depName (Object_keys (or_empty_object (get_dependencies packageJson)))
  /\ exists pluginName, parsePluginName depName = Some pluginName.
Proof.
  unfold pumpkinsPluginDepNames, Array_filter. rewrite List.filter_In, filter_guarantees.
  intros [Hin Hmatch]. split; [exact Hin|].
  destruct (parsePluginName depName) as [n|]; [eauto | discriminate].
Qed.

Lemma get_dependencies_other_key props1 key value props2 :
  key <> "dependencies" ->
  get_dependencies (JObject (props1 ++ (key, value) :: props2))
  = get_dependencies (JObject (props1 ++ props2)).
Proof.
  intros Hkey. simpl. induction props1 as [|[k v] props1 IH]; simpl.
  - destruct (String.eqb_spec key "dependencies"); [contradiction | reflexivity].
  - destruct (String.eqb k "dependencies"); [reflexivity | exact IH].
Qed.

Section Scanner.
Context `{Host}.
Variable require : string -> M PluginPackage.t.

Lemma __doLoadAllFromPackageJson_names packageJson st :
  __doLoadAllFromPackageJson require (Some packageJson) st
  = Array_map (instantiate require) (pumpkinsPluginDepNames packageJson) st.
Proof.
  unfold __doLoadAllFromPackageJson, pumpkinsPluginDepNames.
  destruct (Object_keys (or_empty_object (get_dependencies packageJson)))
    as [|k ks] eqn:Hkeys; [reflexivity|].
  cbn [length Nat.eqb].
  destruct (Array_filter _ (k :: ks)) as [|n ns]; [reflexivity|].
  cbn [length Nat.eqb]. apply bind_ret_r.
Qed.

Lemma __doLoadAllFromPackageJson_empty packageJson st :
  no_dependency_entries packageJson ->
  __doLoadAllFromPackageJson require packageJson st = (Returned [], st).
Proof.
  destruct packageJson as [packageJson|]; [|reflexivity].
  unfold no_dependency_entries. intros Hkeys.
  rewrite __doLoadAllFromPackageJson_names.
  unfold pumpkinsPluginDepNames. rewrite Hkeys. reflexivity.
Qed.



Lemma instantiate_nullish depName st type_error st' :
  require depName st = (Returned (PluginPackage.Nullish type_error), st') ->
  instantiate require depName st = (Thrown type_error, st').
Proof.
  intros Hreq. unfold instantiate, bind, try_catch.
  rewrite Hreq. reflexivity.
Qed.


End Scanner.

(** ** The aggregators *)

Section Aggregators.
Context `{Host}.

Lemma guarded_Returned {A} (m : M A) (message : Error -> string) st a st' :
  (let* x := try_catch m (fun error => fatal (message error)) in ret x) st
  = (Returned a, st')
  <-> m st = (Returned a, st').
Proof.
  rewrite bind_ret_r. unfold try_catch, fatal.
  destruct (m st) as [[x|e|d] st1]; split; congruence.
Qed.

Lemma visits_guarded {A B} (f : A -> M B) (message : A -> Error -> string) xs st ys st' :
  visits
    (fun x => let* y := try_catch (f x) (fun error => fatal (message x error)) in ret y)
    xs st ys st'
  <-> visits f xs st ys st'.
Proof.
  split; induction 1; econstructor; eauto.
  - eapply guarded_Returned; eauto.
  - apply guarded_Returned; assumption.
Qed.

Lemma runtime_aggregation_Returned plugins st contributions st' :
  __doLoadAllRuntimePluginsFromPackageJson plugins st = (Returned contributions, st')
  <-> visits (fun driver => loadRuntimePlugin driver)
        (Array_filter (fun driver => extendsRuntime driver) plugins)
        st contributions st'.
Proof.
  unfold __doLoadAllRuntimePluginsFromPackageJson. rewrite bind_ret_r.
  rewrite Array_map_Returned.
  apply (visits_guarded (fun driver => loadRuntimePlugin driver)
           (fun driver => runtime_error_message (name driver))).
Qed.


Lemma loadAllWorkflowPluginsFromPackageJson_split require fs_readAsync layout st :
  loadAllWorkflowPluginsFromPackageJson require fs_readAsync layout st
  = (let* plugins := loadAllFromPackageJson require fs_readAsync in
     workflow_aggregation layout plugins) st.
Proof.
  unfold loadAllWorkflowPluginsFromPackageJson, await.
  apply bind_ext. intros plugins st1. apply bind_ret_r.
Qed.



End Aggregators.

(** The sample manifest on the sample loader: [lodash] is passed over, the
    two plugins under [dependencies] give their drivers in that order, and
    the plugin under [devDependencies] gives none. *)
Example load_sample_manifest :
  match __doLoadAllFromPackageJson sample_require (Some sample_manifest) sample_state with
  | (Returned [prisma; watch], _) =>
      name prisma = "prisma"
      /\ (extendsWorkflow prisma, extendsRuntime prisma) = (false, true)
      /\ name watch = "watch"
      /\ (extendsWorkflow watch, extendsRuntime watch) = (true, false)
  | _ => False
  end.
Proof. vm_compute. repeat split. Qed.

Example aggregate_sample_manifest :
  fst (loadAllRuntimePluginsFromPackageJsonSync sample_require
         (ret (Some sample_manifest)) sample_state)
  = Returned [Some sample_contributions]
  /\ exists hooks settings,
      fst (loadAllWorkflowPluginsFromPackageJson sample_require
             (ret (Some sample_manifest)) tt sample_state)
      = Returned [hooks]
      /\ WorkflowHooks.get "dev" hooks
         = Some (WorkflowHooks.Object [("addToSettings", settings)])
      /\ WorkflowHooks.get "watchFilePatterns" settings
         = Some (WorkflowHooks.Patterns ["*.graphql"]).
Proof. split; [reflexivity|]. eexists _, _. repeat split; reflexivity. Qed.

(** A workflow definer that throws while the hooks are aggregated ends the
    process with the diagnostic of the workflow component. *)
Example aggregate_throwing_definer :
  fst (loadAllWorkflowPluginsFromPackageJson
         (fun _ => module_exporting workflow_throwing)
         (ret (Some (manifest_with ["pumpkins-plugin-faulty"]))) tt sample_state)
  = Exited (workflow_error_message (H := sample_host) "faulty" "boom").
Proof. reflexivity. Qed.

(** ** Absent and empty manifests *)

(** C6.  When the manifest is absent (the read yields [undefined]) or its
    [dependencies] has no entry, the load returns the empty driver list, and
    so do the workflow and the runtime aggregation, in both modes; nothing
    is thrown, the process is not ended and the state is the one the read
    left. *)
Theorem empty_manifest_loads_nothing
  (H : Host) require fs_read fs_readAsync (layout : Layout) packageJson :
  no_dependency_entries packageJson ->
  (forall st, __doLoadAllFromPackageJson require packageJson st = (Returned [], st))
  /\ (forall st st',
        fs_read st = (Returned packageJson, st') ->
        loadAllFromPackageJsonSync require fs_read st = (Returned [], st')
        /\ loadAllRuntimePluginsFromPackageJsonSync require fs_read st
           = (Returned [], st'))
  /\ (forall st st',
        await fs_readAsync st = (Returned packageJson, st') ->
        loadAllFromPackageJson require fs_readAsync st = (Returned [], st')
        /\ loadAllWorkflowPluginsFromPackageJson require fs_readAsync layout st
           = (Returned [], st')
        /\ loadAllRuntimePluginsFromPackageJson require fs_readAsync st
           = (Returned [], st')).
Proof.
  intros Hempty.
  pose proof (fun st => __doLoadAllFromPackageJson_empty require packageJson st Hempty)
    as Hload.
  split; [exact Hload|]. split.
  - intros st st' Hread.
    assert (loadAllFromPackageJsonSync require fs_read st = (Returned [], st')) as Hsync.
    { unfold loadAllFromPackageJsonSync.
      continue_with Hread. apply Hload. }
    split; [exact Hsync|].
    unfold loadAllRuntimePluginsFromPackageJsonSync.
    continue_with Hsync. reflexivity.
  - intros st st' Hread.
    assert (loadAllFromPackageJson require fs_readAsync st = (Returned [], st')) as Hasync.
    { unfold loadAllFromPackageJson.
      continue_with Hread. apply Hload. }
    split; [exact Hasync|]. split.
    + rewrite loadAllWorkflowPluginsFromPackageJson_split.
      continue_with Hasync. reflexivity.
    + unfold loadAllRuntimePluginsFromPackageJson, await.
      continue_with Hasync. reflexivity.
Qed.

Lemma empty_manifest_loads_nothing_witness :
  no_dependency_entries (Some (JObject [("name", JString "app")]))
  /\ __doLoadAllFromPackageJson sample_require
       (Some (JObject [("name", JString "app")])) sample_state
     = (Returned [], sample_state).
Proof.
  split; [reflexivity|].
  exact (proj1 (empty_manifest_loads_nothing sample_host sample_require
                  (ret None) (ret None) tt
                  (Some (JObject [("name", JString "app")])) eq_refl)
           sample_state).
Defined.

(** ** Blocking and suspension-capable entry points *)

(** C7.  When the blocking read and the awaited read of the manifest give
    the same document, [loadAllFromPackageJson] and
    [loadAllFromPackageJsonSync] have the same result, and so have
    [loadAllRuntimePluginsFromPackageJson] and
    [loadAllRuntimePluginsFromPackageJsonSync]. *)
Theorem sync_and_async_agree (H : Host) require fs_read fs_readAsync st :
  await fs_readAsync st = fs_read st ->
  loadAllFromPackageJson require fs_readAsync st
  = loadAllFromPackageJsonSync require fs_read st
  /\ loadAllRuntimePluginsFromPackageJson require fs_readAsync st
     = loadAllRuntimePluginsFromPackageJsonSync require fs_read st.
Proof.
  intros Hread.
  assert (loadAllFromPackageJson require fs_readAsync st
          = loadAllFromPackageJsonSync require fs_read st) as Hload.
  { unfold loadAllFromPackageJson, loadAllFromPackageJsonSync, bind.
    rewrite Hread. reflexivity. }
  split; [exact Hload|].
  unfold loadAllRuntimePluginsFromPackageJson,
    loadAllRuntimePluginsFromPackageJsonSync, await, bind.
  rewrite Hload. reflexivity.
Qed.

Lemma sync_and_async_agree_witness :
  loadAllRuntimePluginsFromPackageJson sample_require
    (ret (Some sample_manifest)) sample_state
  = loadAllRuntimePluginsFromPackageJsonSync sample_require
      (ret (Some sample_manifest)) sample_state.
Proof.
  apply (sync_and_async_agree sample_host sample_require
           (ret (Some sample_manifest)) (ret (Some sample_manifest)) sample_state).
  reflexivity.
Defined.

(** ** Which identifiers are scanned *)


Lemma instantiate_ext {H : Host} require require' depName st :
  require depName st = require' depName st ->
  instantiate require depName st = instantiate require' depName st.
Proof.
  intros Hreq. unfold instantiate, bind at 1 4, try_catch at 1 3.
  rewrite Hreq. reflexivity.
Qed.


(** C10.  The load reads the manifest through its [dependencies] property
    alone: two manifests with the same [dependencies] load alike, a property
    under any other key can be added or removed without effect, only
    identifiers that are keys of [dependencies] are resolved, every driver
    comes from one of them, and a plugin identifier listed under
    [devDependencies] only gives no driver. *)
Theorem only_dependencies_are_scanned (H : Host) require :
  (forall packageJson1 packageJson2 st,
      get_dependencies packageJson1 = get_dependencies packageJson2 ->
      __doLoadAllFromPackageJson require (Some packageJson1) st
      = __doLoadAllFromPackageJson require (Some packageJson2) st)
  /\ (forall props1 key value props2 st,
        key <> "dependencies" ->
        __doLoadAllFromPackageJson require
          (Some (JObject (props1 ++ (key, value) :: props2))) st
        = __doLoadAllFromPackageJson require (Some (JObject (props1 ++ props2))) st)
  /\ (forall require' packageJson st,
        (forall depName st,
            In depName (pumpkinsPluginDepNames packageJson) ->
            require depName st = require' depName st) ->
        __doLoadAllFromPackageJson require (Some packageJson) st
        = __doLoadAllFromPackageJson require' (Some packageJson) st)
  /\ (forall packageJson depName,
        In depName (pumpkinsPluginDepNames packageJson) ->
        In depName (Object_keys (or_empty_object (get_dependencies packageJson))))
  /\ (forall packageJson st drivers st',
        __doLoadAllFromPackageJson require (Some packageJson) st
        = (Returned drivers, st') ->
        Forall2
          (fun depName driver =>
             exists s s', instantiate require depName s = (Returned driver, s'))
          (pumpkinsPluginDepNames packageJson) drivers)
  /\ (forall st,
        __doLoadAllFromPackageJson require
          (Some (JObject
                   [("devDependencies",
                      JObject [("pumpkins-plugin-auth", JString "1.0.0")])])) st
        = (Returned [], st)).
Proof.
  assert (forall packageJson1 packageJson2 st,
             get_dependencies packageJson1 = get_dependencies packageJson2 ->
             __doLoadAllFromPackageJson require (Some packageJson1) st
             = __doLoadAllFromPackageJson require (Some packageJson2) st) as Hsame.
  { intros packageJson1 packageJson2 st Hdeps.
    rewrite !__doLoadAllFromPackageJson_names.
    unfold pumpkinsPluginDepNames. rewrite Hdeps. reflexivity. }
  split; [exact Hsame|]. split.
  { intros props1 key value props2 st Hkey. apply Hsame.
    apply get_dependencies_other_key. exact Hkey. }
  split.
  { intros require' packageJson st Hreq.
    rewrite !__doLoadAllFromPackageJson_names. apply Array_map_ext.
    intros depName st1 Hin. apply instantiate_ext. apply Hreq. exact Hin. }
  split.
  { intros packageJson depName Hin.
    apply (pumpkinsPluginDepNames_keys packageJson depName Hin). }
  split; [|reflexivity].
  intros packageJson st drivers st' Hload.
  rewrite __doLoadAllFromPackageJson_names in Hload.
  apply Array_map_Returned in Hload. apply (visits_Forall2 _ _ _ _ _ Hload).
Qed.

(** ** Order of the aggregated lists *)


(** ** Failures in the driver factory *)




Lemma instantiate_Returned {H : Host} require depName st d st' :
  instantiate require depName st = (Returned d, st')
  <-> exists st1 creator,
      require depName st
      = (Returned (PluginPackage.Exporting (PluginPackage.Function creator)), st1)
      /\ creator (non_null (parsePluginName depName)) st1 = (Returned d, st').
Proof.
  unfold instantiate, bind at 1, try_catch at 1, fatal.
  destruct (require depName st) as [[[type_error|[|creator]]|e|m] st1]; simpl.
  - split; [discriminate|]. intros (s & c & Hreq & _). discriminate.
  - split; [discriminate|]. intros (s & c & Hreq & _). discriminate.
  - unfold bind at 1. simpl. rewrite bind_ret_r. unfold try_catch, fatal. split.
    + destruct (creator _ st1) as [[x|e|m] st2] eqn:Hcall; try discriminate.
      intros [= <- <-]. exists st1, creator. auto.
    + intros (s & c & [= <- <-] & Hcall). rewrite Hcall. reflexivity.
  - split; [discriminate|]. intros (s & c & Hreq & _). discriminate.
  - split; [discriminate|]. intros (s & c & Hreq & _). discriminate.
Qed.

Lemma Array_map_Thrown {H : Host} {A B} (f : A -> M B) pre x post st ys st1 e st2 :
  visits f pre st ys st1 ->
  f x st1 = (Thrown e, st2) ->
  Array_map f (pre ++ x :: post) st = (Thrown e, st2).
Proof.
  intros Hpre Hx. rewrite Array_map_app.
  apply Array_map_Returned in Hpre.
  continue_with Hpre. simpl.
  apply bind_Thrown. apply bind_Thrown. exact Hx.
Qed.

(** C1 (the code against the claim).  For a matched identifier whose
    module resolves to [null] or [undefined], the claim does not hold of the
    code: the test of [SomePlugin.create] reads the property outside any
    [try], so when the load reaches that identifier it throws the
    [TypeError] of that read.  [fatal] is not called, the process is not
    ended with a diagnostic that names the plugin, and each entry point
    throws the same error (a rejected promise for the suspension-capable
    ones), at any position of the manifest. *)
Theorem nullish_module_is_not_fatal
  (H : Host) require fs_read fs_readAsync (layout : Layout)
  packageJson st pre depName post drivers st1 type_error st2 :
  pumpkinsPluginDepNames packageJson = pre ++ depName :: post ->
  visits (instantiate require) pre st drivers st1 ->
  require depName st1 = (Returned (PluginPackage.Nullish type_error), st2) ->
  __doLoadAllFromPackageJson require (Some packageJson) st = (Thrown type_error, st2)
  /\ (forall diagnostic s,
        __doLoadAllFromPackageJson require (Some packageJson) st
        <> (Exited diagnostic, s))
  /\ (forall st0,
        fs_read st0 = (Returned (Some packageJson), st) ->
        loadAllFromPackageJsonSync require fs_read st0 = (Thrown type_error, st2)
        /\ loadAllRuntimePluginsFromPackageJsonSync require fs_read st0
           = (Thrown type_error, st2))
  /\ (forall st0,
        await fs_readAsync st0 = (Returned (Some packageJson), st) ->
        loadAllFromPackageJson require fs_readAsync st0 = (Thrown type_error, st2)
        /\ loadAllWorkflowPluginsFromPackageJson require fs_readAsync layout st0
           = (Thrown type_error, st2)
        /\ loadAllRuntimePluginsFromPackageJson require fs_readAsync st0
           = (Thrown type_error, st2)).
Proof.
  intros Hnames Hpre Hreq.
  assert (__doLoadAllFromPackageJson require (Some packageJson) st
          = (Thrown type_error, st2)) as Hload.
  { rewrite __doLoadAllFromPackageJson_names, Hnames.
    eapply Array_map_Thrown; [exact Hpre|].
    apply instantiate_nullish. exact Hreq. }
  split; [exact Hload|]. split; [rewrite Hload; discriminate|]. split.
  - intros st0 Hread.
    assert (loadAllFromPackageJsonSync require fs_read st0 = (Thrown type_error, st2))
      as Hsync.
    { unfold loadAllFromPackageJsonSync. continue_with Hread. exact Hload. }
    split; [exact Hsync|].
    unfold loadAllRuntimePluginsFromPackageJsonSync. apply bind_Thrown. exact Hsync.
  - intros st0 Hread.
    assert (loadAllFromPackageJson require fs_readAsync st0 = (Thrown type_error, st2))
      as Hasync.
    { unfold loadAllFromPackageJson. continue_with Hread. exact Hload. }
    split; [exact Hasync|]. split.
    + rewrite loadAllWorkflowPluginsFromPackageJson_split.
      apply bind_Thrown. exact Hasync.
    + unfold loadAllRuntimePluginsFromPackageJson, await.
      apply bind_Thrown. exact Hasync.
Qed.

Lemma nullish_module_is_not_fatal_witness :
  exists st2,
    __doLoadAllFromPackageJson sample_require
      (Some (manifest_with ["pumpkins-plugin-prisma"; "pumpkins-plugin-null"]))
      sample_state
    = (Thrown "TypeError: Cannot read property 'create' of null", st2).
Proof.
  edestruct nullish_module_is_not_fatal
    with (H := sample_host) (require := sample_require)
         (fs_read := @ret sample_host _ (@None Json))
         (fs_readAsync := @ret sample_host _ (@None Json)) (layout := tt)
         (packageJson :=
            manifest_with ["pumpkins-plugin-prisma"; "pumpkins-plugin-null"])
         (st := sample_state) (pre := ["pumpkins-plugin-prisma"])
         (depName := "pumpkins-plugin-null") (post := @nil string)
    as [Hload _].
  - reflexivity.
  - apply Array_map_Returned. vm_compute. reflexivity.
  - vm_compute. reflexivity.
  - eexists. exact Hload.
Defined.



(** ** The driver factory *)

Section DriverFactory.
Context `{Host}.

Lemma last_workflow_registers rs :
  truthy (last_workflow rs) = registers_workflow rs.
Proof.
  induction rs as [|r rs IH]; simpl; [reflexivity|].
  rewrite <- IH. destruct (last_workflow rs), r; reflexivity.
Qed.

Lemma last_runtime_registers rs :
  truthy (last_runtime rs) = registers_runtime rs.
Proof.
  induction rs as [|r rs IH]; simpl; [reflexivity|].
  rewrite <- IH. destruct (last_runtime rs), r; reflexivity.
Qed.

Lemma fold_register_workflow rs s :
  maybeWorkflowPlugin (fold_left register rs s)
  = match last_workflow rs with
    | Some f => Some f
    | None => maybeWorkflowPlugin s
    end.
Proof.
  revert s. induction rs as [|r rs IH]; intros s; simpl; [reflexivity|].
  rewrite IH. destruct (last_workflow rs), r; reflexivity.
Qed.

Lemma fold_register_runtime rs s :
  maybeRuntimePlugin (fold_left register rs s)
  = match last_runtime rs with
    | Some f => Some f
    | None => maybeRuntimePlugin s
    end.
Proof.
  revert s. induction rs as [|r rs IH]; intros s; simpl; [reflexivity|].
  rewrite IH. destruct (last_runtime rs), r; reflexivity.
Qed.

Lemma slots_at_set env s st : slots_at env (set_slots env s st) = s.
Proof. unfold slots_at, set_slots. simpl. rewrite lookup_insert_eq. reflexivity. Qed.

Lemma fresh_env_free st : closures st !! fresh_env st = None.
Proof. unfold fresh_env. apply not_elem_of_dom. apply is_fresh. Qed.

Lemma driverCreator_state definer env pluginName st :
  snd (driverCreator definer env pluginName st) = applied definer env pluginName st.
Proof.
  unfold driverCreator, applied.
  destruct (definer _ (world st)) as [call w].
  destruct (completion call); reflexivity.
Qed.

Lemma applied_world definer env pluginName st :
  world (applied definer env pluginName st)
  = snd (definer {| debug := "plugin:" +:+ pluginName |} (world st)).
Proof. unfold applied. destruct (definer _ (world st)); reflexivity. Qed.

Lemma applied_slots definer env pluginName st :
  slots_at env (applied definer env pluginName st)
  = fold_left register
      (registrations (fst (definer {| debug := "plugin:" +:+ pluginName |} (world st))))
      (slots_at env st).
Proof.
  unfold applied. destruct (definer _ (world st)) as [call w]. simpl.
  unfold slots_at at 1. simpl. rewrite lookup_insert_eq. reflexivity.
Qed.

Lemma applied_other definer env pluginName st env' :
  env' <> env ->
  closures (applied definer env pluginName st) !! env' = closures st !! env'.
Proof.
  intros Hne. unfold applied. destruct (definer _ (world st)) as [call w]. simpl.
  apply lookup_insert_ne. congruence.
Qed.

Lemma driverCreator_Returned definer env pluginName st d st' :
  driverCreator definer env pluginName st = (Returned d, st') ->
  st' = applied definer env pluginName st
  /\ name d = pluginName
  /\ extendsWorkflow d = truthy (maybeWorkflowPlugin (slots_at env st'))
  /\ extendsRuntime d = truthy (maybeRuntimePlugin (slots_at env st'))
  /\ loadWorkflowPlugin d = create_loadWorkflowPlugin env
  /\ loadRuntimePlugin d = create_loadRuntimePlugin env.
Proof.
  intros Hrun.
  pose proof (driverCreator_state definer env pluginName st) as Hst.
  pose proof (applied_slots definer env pluginName st) as Hslots.
  rewrite Hrun in Hst. simpl in Hst. subst st'. split; [reflexivity|].
  rewrite Hslots. clear Hslots.
  unfold driverCreator in Hrun.
  destruct (definer _ (world st)) as [call w]. simpl.
  destruct (completion call); try discriminate.
  injection Hrun as <-. simpl. repeat split; reflexivity.
Qed.

Lemma driverCreator_outcome definer env pluginName st :
  match completion (fst (definer {| debug := "plugin:" +:+ pluginName |} (world st))) with
  | Returned _ => exists d, fst (driverCreator definer env pluginName st) = Returned d
  | Thrown e => fst (driverCreator definer env pluginName st) = Thrown e
  | Exited m => fst (driverCreator definer env pluginName st) = Exited m
  end.
Proof.
  unfold driverCreator. destruct (definer _ (world st)) as [call w]. simpl.
  destruct (completion call); simpl; eauto.
Qed.

Lemma run_plugin_closures {A} (code : PluginCode A) st :
  closures (snd (run_plugin code st)) = closures st.
Proof. unfold run_plugin. destruct (code (world st)); reflexivity. Qed.

End DriverFactory.

Lemma truthy_fold_workflow {H : Host} rs s :
  truthy (maybeWorkflowPlugin (fold_left register rs s))
  = registers_workflow rs || truthy (maybeWorkflowPlugin s).
Proof.
  rewrite fold_register_workflow, <- last_workflow_registers.
  destruct (last_workflow rs); reflexivity.
Qed.

Lemma truthy_fold_runtime {H : Host} rs s :
  truthy (maybeRuntimePlugin (fold_left register rs s))
  = registers_runtime rs || truthy (maybeRuntimePlugin s).
Proof.
  rewrite fold_register_runtime, <- last_runtime_registers.
  destruct (last_runtime rs); reflexivity.
Qed.

Lemma driverCreator_flags {H : Host} (definer : Definer) env pluginName st d st' :
  driverCreator definer env pluginName st = (Returned d, st') ->
  extendsWorkflow d
  = registers_workflow
      (registrations (fst (definer {| debug := "plugin:" +:+ pluginName |} (world st))))
    || truthy (maybeWorkflowPlugin (slots_at env st))
  /\ extendsRuntime d
     = registers_runtime
         (registrations (fst (definer {| debug := "plugin:" +:+ pluginName |} (world st))))
       || truthy (maybeRuntimePlugin (slots_at env st)).
Proof.
  intros Hrun.
  destruct (driverCreator_Returned _ _ _ _ _ _ Hrun) as (-> & _ & -> & -> & _).
  rewrite applied_slots. split; [apply truthy_fold_workflow | apply truthy_fold_runtime].
Qed.

(** C8 (amended).  [create(definer)] allocates the two slots once, both
    unset, and does not run the defining function; every application of the
    driver creator it returns works on those same slots.  An application runs
    the defining function exactly once (the world moves by one run of it),
    leaves in each slot the last registration of that run, or what the slot
    held before when the run made none, and, when the defining function
    returns, gives a driver named after the argument whose flag is set
    exactly when the slot is set after the run: a registration was made in
    this application or the slot was already set before it.  On an
    application that starts with both slots unset (the first one), the flags
    reflect exactly the registrations of that application. *)
Theorem create_shares_its_slots (H : Host) (definer : Definer) :
  (forall st,
      create definer st
      = (Returned (driverCreator definer (fresh_env st)),
         set_slots (fresh_env st) unset st)
      /\ closures st !! fresh_env st = None
      /\ slots_at (fresh_env st) (set_slots (fresh_env st) unset st) = unset
      /\ world (set_slots (fresh_env st) unset st) = world st)
  /\ (forall env pluginName st,
        let call := fst (definer {| debug := "plugin:" +:+ pluginName |} (world st)) in
        let st' := snd (driverCreator definer env pluginName st) in
        world st' = snd (definer {| debug := "plugin:" +:+ pluginName |} (world st))
        /\ slots_at env st' = fold_left register (registrations call) (slots_at env st)
        /\ (forall env', env' <> env -> closures st' !! env' = closures st !! env')
        /\ match completion call with
           | Returned _ =>
               exists d,
                 driverCreator definer env pluginName st = (Returned d, st')
                 /\ name d = pluginName
                 /\ extendsWorkflow d
                    = registers_workflow (registrations call)
                      || truthy (maybeWorkflowPlugin (slots_at env st))
                 /\ extendsRuntime d
                    = registers_runtime (registrations call)
                      || truthy (maybeRuntimePlugin (slots_at env st))
           | Thrown e => driverCreator definer env pluginName st = (Thrown e, st')
           | Exited m => driverCreator definer env pluginName st = (Exited m, st')
           end)
  /\ (forall env pluginName st d st',
        slots_at env st = unset ->
        driverCreator definer env pluginName st = (Returned d, st') ->
        let call := fst (definer {| debug := "plugin:" +:+ pluginName |} (world st)) in
        extendsWorkflow d = registers_workflow (registrations call)
        /\ extendsRuntime d = registers_runtime (registrations call)).
Proof.
  split.
  { intros st. split; [reflexivity|]. split; [apply fresh_env_free|].
    split; [apply slots_at_set | reflexivity]. }
  pose proof (driverCreator_flags definer) as Hflags.
  split.
  - intros env pluginName st call st'. subst call st'.
    rewrite driverCreator_state.
    split; [apply applied_world|]. split; [apply applied_slots|].
    split; [intros env' Hne; apply applied_other; exact Hne|].
    pose proof (driverCreator_outcome definer env pluginName st) as Hout.
    pose proof (driverCreator_state definer env pluginName st) as Hst.
    destruct (driverCreator definer env pluginName st) as [o st'] eqn:Hrun.
    simpl in Hout, Hst. subst st'.
    destruct (completion _) as [u|e|m].
    + destruct Hout as [d ->]. exists d. split; [reflexivity|].
      destruct (driverCreator_Returned _ _ _ _ _ _ Hrun) as (_ & Hname & _).
      split; [exact Hname|]. apply (Hflags _ _ _ _ _ Hrun).
    + rewrite Hout. reflexivity.
    + rewrite Hout. reflexivity.
  - intros env pluginName st d st' Hunset Hrun call. subst call.
    destruct (Hflags _ _ _ _ _ Hrun) as [-> ->]. rewrite Hunset. simpl.
    rewrite !orb_false_r. split; reflexivity.
Qed.

Lemma create_shares_its_slots_witness :
  exists d st',
    driverCreator runtime_only 0 "prisma" sample_state = (Returned d, st')
    /\ extendsWorkflow d = false /\ extendsRuntime d = true.
Proof.
  destruct (create_shares_its_slots sample_host runtime_only) as (_ & _ & Hfirst).
  eexists _, _. split; [reflexivity|].
  apply (Hfirst 0 "prisma" sample_state _ _ eq_refl eq_refl).
Defined.

(** C8, as stated, fails from the second application of a driver creator
    on: the slots still hold what the first application registered, and the
    flag is set although this application registered nothing. *)
Lemma second_application_counterexample :
  exists creator st1 d1 st2 d2 st3,
    create workflow_once sample_state = (Returned creator, st1)
    /\ creator "once" st1 = (Returned d1, st2)
    /\ creator "once" st2 = (Returned d2, st3)
    /\ truthy (maybeWorkflowPlugin (slots_at (fresh_env sample_state) st2)) = true
    /\ registrations (fst (workflow_once {| debug := "plugin:once" |} (world st2))) = []
    /\ extendsWorkflow d2 = true.
Proof.
  eexists _, _, _, _, _, _.
  split; [reflexivity|]. split; [reflexivity|]. split; [reflexivity|].
  repeat split; reflexivity.
Qed.

(** ** The loaders of a driver *)

Section Loaders.
Context `{Host}.

Lemma create_loadWorkflowPlugin_run env layout st :
  create_loadWorkflowPlugin env layout st
  = match maybeWorkflowPlugin (slots_at env st) with
    | None => (Returned default_hooks, st)
    | Some f => run_plugin (f default_hooks {| layout := layout |}) st
    end.
Proof.
  unfold create_loadWorkflowPlugin.
  destruct (maybeWorkflowPlugin (slots_at env st)); reflexivity.
Qed.

Lemma create_loadRuntimePlugin_run env st :
  create_loadRuntimePlugin env st
  = match maybeRuntimePlugin (slots_at env st) with
    | None => (Returned None, st)
    | Some f => (let* c := run_plugin f in ret (Some c)) st
    end.
Proof.
  unfold create_loadRuntimePlugin.
  destruct (maybeRuntimePlugin (slots_at env st)); reflexivity.
Qed.

Lemma create_loadWorkflowPlugin_closures env layout st :
  closures (snd (create_loadWorkflowPlugin env layout st)) = closures st.
Proof.
  rewrite create_loadWorkflowPlugin_run.
  destruct (maybeWorkflowPlugin (slots_at env st)); [apply run_plugin_closures | reflexivity].
Qed.

Lemma create_loadRuntimePlugin_closures env st :
  closures (snd (create_loadRuntimePlugin env st)) = closures st.
Proof.
  rewrite create_loadRuntimePlugin_run.
  destruct (maybeRuntimePlugin (slots_at env st)) as [f|]; [|reflexivity].
  unfold bind. pose proof (run_plugin_closures f st) as Hcl.
  destruct (run_plugin f st) as [[c|e|d] st']; exact Hcl.
Qed.

Lemma run_plugin_Returned {A} (code : PluginCode A) st a st' :
  run_plugin code st = (Returned a, st')
  <-> code (world st) = (Returned a, world st') /\ closures st' = closures st.
Proof.
  unfold run_plugin. destruct (code (world st)) as [o w]. split.
  - intros [= -> <-]. split; reflexivity.
  - intros [[= -> ->] Hcl]. destruct st' as [cl w']. simpl in Hcl. subst cl.
    reflexivity.
Qed.

End Loaders.

(** ** The hooks object *)

Section HooksObject.
Context `{Host}.
Import WorkflowHooks.

Lemma lookup_store key x props key0 :
  lookup key0 (store key x props)
  = if String.eqb key key0 then Some x else lookup key0 props.
Proof.
  induction props as [|[k v] props IH]; simpl.
  - destruct (String.eqb key key0); reflexivity.
  - destruct (String.eqb_spec k key) as [->|Hk]; simpl.
    + destruct (String.eqb key key0); reflexivity.
    + rewrite IH. destruct (String.eqb_spec key key0) as [Heq|Hk0]; [|reflexivity].
      subst key0. destruct (String.eqb_spec k key); [contradiction | reflexivity].
Qed.

Lemma lookup_erase key props key0 :
  lookup key0 (erase key props)
  = if String.eqb key key0 then None else lookup key0 props.
Proof.
  induction props as [|[k v] props IH]; simpl.
  - destruct (String.eqb key key0); reflexivity.
  - destruct (String.eqb_spec k key) as [->|Hk]; simpl.
    + rewrite IH. destruct (String.eqb key key0); reflexivity.
    + rewrite IH. destruct (String.eqb_spec key key0) as [Heq|Hk0]; [|reflexivity].
      subst key0. destruct (String.eqb_spec k key); [contradiction | reflexivity].
Qed.

Lemma get_set key x v v' key0 :
  set key x v = Some v' ->
  get key0 v' = if String.eqb key key0 then Some x else get key0 v.
Proof.
  destruct v; simpl; try discriminate. intros [= <-]. simpl. apply lookup_store.
Qed.

Lemma get_delete key v v' key0 :
  delete key v = Some v' ->
  get key0 v' = if String.eqb key key0 then None else get key0 v.
Proof.
  destruct v; simpl; try discriminate. intros [= <-]. simpl. apply lookup_erase.
Qed.

Lemma has_set key x v v' key0 :
  set key x v = Some v' -> has key0 v = true -> has key0 v' = true.
Proof.
  intros Hset. unfold has. rewrite (get_set _ _ _ _ key0 Hset).
  destruct (String.eqb key key0); [reflexivity | trivial].
Qed.

Lemma has_delete key v v' key0 :
  delete key v = Some v' -> key <> key0 -> has key0 v = true -> has key0 v' = true.
Proof.
  intros Hdel Hne. unfold has. rewrite (get_delete _ _ _ key0 Hdel).
  destruct (String.eqb_spec key key0); [contradiction | trivial].
Qed.

(** An assignment or a deletion through a path ends with a write of the
    first property of the path, unless it deletes that property itself. *)
Lemma assign_writes key rest x v v' :
  assign (key :: rest) x v = Some v' ->
  exists y,
    set key y v = Some v'
    /\ (rest = [] /\ y = x
        \/ exists child,
            rest <> [] /\ get key v = Some child /\ assign rest x child = Some y).
Proof.
  simpl. destruct rest as [|key2 rest].
  - intros Hset. exists x. auto.
  - destruct (get key v) as [child|]; [|discriminate].
    destruct (assign (key2 :: rest) x child) as [y|] eqn:Hy; [|discriminate].
    intros Hset. exists y. split; [exact Hset|]. right. exists child.
    repeat split; [discriminate | exact Hy].
Qed.

Lemma delete_at_writes key rest v v' :
  delete_at (key :: rest) v = Some v' ->
  rest = [] /\ delete key v = Some v'
  \/ exists child y,
      rest <> [] /\ get key v = Some child
      /\ delete_at rest child = Some y /\ set key y v = Some v'.
Proof.
  simpl. destruct rest as [|key2 rest].
  - intros Hdel. left. auto.
  - destruct (get key v) as [child|]; [|discriminate].
    destruct (delete_at (key2 :: rest) child) as [y|] eqn:Hy; [|discriminate].
    intros Hset. right. exists child, y. repeat split; [discriminate | exact Hy | exact Hset].
Qed.

Lemma has_phase_keys_iff hooks :
  has_phase_keys hooks = true
  <-> has "create" hooks = true /\ has "dev" hooks = true
      /\ has "generate" hooks = true /\ has "build" hooks = true
      /\ exists dev, get "dev" hooks = Some dev /\ has "addToSettings" dev = true.
Proof.
  unfold has_phase_keys. rewrite !andb_true_iff. split.
  - intros [[[[Hc Hd] Hg] Hb] Hs].
    destruct (get "dev" hooks) as [dev|]; [eauto 10 | discriminate].
  - intros (Hc & Hd & Hg & Hb & dev & -> & Hs). auto.
Qed.

Lemma mutation_keeps_phase_keys m hooks hooks' :
  has_phase_keys hooks = true ->
  keeps_keys m = true ->
  mutation m hooks = Some hooks' ->
  has_phase_keys hooks' = true.
Proof.
  rewrite !has_phase_keys_iff.
  intros (Hc & Hd & Hg & Hb & dev & Hdev & Hs) Hkeeps Hm.
  destruct m as [[|key rest] x|[|key rest]]; simpl in Hm; try discriminate.
  - (* an assignment *)
    apply assign_writes in Hm as (y & Hset & Hy).
    repeat (split; [eapply has_set; eassumption|]).
    rewrite (get_set _ _ _ _ "dev" Hset).
    destruct (String.eqb_spec key "dev") as [->|Hne]; [|eauto].
    exists y. split; [reflexivity|].
    destruct Hy as [[-> ->]|(child & _ & Hchild & Hassign)].
    + simpl in Hkeeps. exact Hkeeps.
    + rewrite Hdev in Hchild. injection Hchild as <-.
      destruct rest as [|key2 rest]; [discriminate|].
      apply assign_writes in Hassign as (y2 & Hset2 & _).
      eapply has_set; eassumption.
  - (* a deletion *)
    simpl in Hkeeps. apply negb_true_iff, bool_decide_eq_false in Hkeeps.
    unfold phase_paths in Hkeeps. rewrite !elem_of_cons, elem_of_nil in Hkeeps.
    apply delete_at_writes in Hm
      as [[-> Hdel]|(child & y & _ & Hchild & Hdelete & Hset)].
    + assert (forall key0,
                 In key0 ["create"; "dev"; "generate"; "build"] -> key <> key0) as Hne.
      { intros key0 Hin <-. apply Hkeeps. simpl in Hin.
        destruct Hin as [<-|[<-|[<-|[<-|[]]]]]; auto 6. }
      repeat (split; [eapply has_delete; [eassumption | apply Hne; simpl; auto 6
                                         | assumption]|]).
      exists dev. split; [|exact Hs].
      rewrite (get_delete _ _ _ "dev" Hdel).
      destruct (String.eqb_spec key "dev") as [Heq|_]; [|exact Hdev].
      destruct (Hne "dev"); simpl; auto.
    + repeat (split; [eapply has_set; eassumption|]).
      rewrite (get_set _ _ _ _ "dev" Hset).
      destruct (String.eqb_spec key "dev") as [->|Hne]; [|eauto].
      exists y. split; [reflexivity|].
      rewrite Hdev in Hchild. injection Hchild as <-.
      destruct rest as [|key2 rest]; [discriminate|].
      apply delete_at_writes in Hdelete
        as [[-> Hdel]|(child2 & y2 & _ & _ & _ & Hset2)].
      * eapply has_delete; [exact Hdel | | exact Hs].
        intros ->. apply Hkeeps. auto 6.
      * eapply has_set; eassumption.
Qed.

Lemma mutate_keeps_phase_keys ms hooks hooks' :
  has_phase_keys hooks = true ->
  Forall (fun m => keeps_keys m = true) ms ->
  mutate ms hooks = Some hooks' ->
  has_phase_keys hooks' = true.
Proof.
  revert hooks. induction ms as [|m ms IH]; simpl; intros hooks Hkeys Hall Hrun.
  - injection Hrun as <-. exact Hkeys.
  - inversion Hall as [|m' ms' Hm Hms]; subst.
    destruct (mutation m hooks) as [hooks1|] eqn:Hstep; [|discriminate].
    apply (IH hooks1); [|exact Hms | exact Hrun].
    apply (mutation_keeps_phase_keys m hooks hooks1 Hkeys Hm Hstep).
Qed.

End HooksObject.

Lemma performing_keeps_phase_keys ms :
  Forall (fun m => keeps_keys m = true) ms -> keeps_phase_keys (performing ms).
Proof.
  intros Hms hooks context w hooks' w' Hret. unfold performing in Hret.
  destruct (WorkflowHooks.mutate ms hooks) as [h|] eqn:Hmutate; [|discriminate].
  injection Hret as <- _. exists ms. split; assumption.
Qed.

Lemma performing_pure ms hooks context : pure (performing ms hooks context).
Proof.
  unfold performing, pure.
  destruct (WorkflowHooks.mutate ms hooks); eexists; intros w; reflexivity.
Qed.

(** C3 (amended).  For a driver made by [create] and any layout,
    [loadWorkflowPlugin] builds the default object, which has the four phase
    keys [create], [dev], [generate] and [build] with [dev.addToSettings],
    and hands it to the workflow definer held in the slot, if any.  When the
    slot is unset it returns that object untouched; when the definer returns,
    it returns the object as the definer left it, and this has the four
    phase keys with [dev.addToSettings] whenever the definer worked by
    assignments and deletions that remove no required property, as the type
    [WorkflowHooks] demands.  The loader returns exactly when the definer,
    if any, returns: a throw of the definer leaves the loader without a
    record. *)
Theorem loadWorkflowPlugin_record
  (H : Host) (definer : Definer) env pluginName st0 d st1 :
  driverCreator definer env pluginName st0 = (Returned d, st1) ->
  forall layout st,
    loadWorkflowPlugin d layout st
    = match maybeWorkflowPlugin (slots_at env st) with
      | None => (Returned default_hooks, st)
      | Some f => run_plugin (f default_hooks {| layout := layout |}) st
      end
    /\ has_phase_keys default_hooks = true
    /\ (forall hooks st',
          loadWorkflowPlugin d layout st = (Returned hooks, st') ->
          (forall f,
              maybeWorkflowPlugin (slots_at env st) = Some f -> keeps_phase_keys f) ->
          has_phase_keys hooks = true)
    /\ ((exists hooks st', loadWorkflowPlugin d layout st = (Returned hooks, st'))
        <-> (forall f,
                maybeWorkflowPlugin (slots_at env st) = Some f ->
                exists hooks w,
                  f default_hooks {| layout := layout |} (world st) = (Returned hooks, w)))
    /\ (maybeWorkflowPlugin (slots_at env st) = None ->
        loadWorkflowPlugin d layout st = (Returned default_hooks, st))
    /\ (extendsWorkflow d = false ->
        loadWorkflowPlugin d layout st1 = (Returned default_hooks, st1)).
Proof.
  intros Hrun layout st.
  destruct (driverCreator_Returned _ _ _ _ _ _ Hrun) as (_ & _ & Hflag & _ & Hload & _).
  rewrite Hload, !create_loadWorkflowPlugin_run.
  split; [reflexivity|]. split; [reflexivity|]. split; [|split].
  - intros hooks st' Hret Hkeeps.
    destruct (maybeWorkflowPlugin (slots_at env st)) as [f|].
    + apply run_plugin_Returned in Hret as [Hret _].
      destruct (Hkeeps f eq_refl _ _ _ _ _ Hret) as (ms & Hms & Hmutate).
      apply (mutate_keeps_phase_keys ms default_hooks hooks eq_refl Hms Hmutate).
    + injection Hret as <- _. reflexivity.
  - destruct (maybeWorkflowPlugin (slots_at env st)) as [f|].
    + split.
      * intros (hooks & st' & Hret) f' [= <-].
        apply run_plugin_Returned in Hret as [Hret _]. eauto.
      * intros Hf. destruct (Hf f eq_refl) as (hooks & w & Hret).
        exists hooks, {| closures := closures st; world := w |}.
        apply run_plugin_Returned. split; [exact Hret | reflexivity].
    + split; [discriminate | eauto].
  - split; [intros ->; reflexivity|].
    intros Hno. rewrite Hno in Hflag.
    destruct (maybeWorkflowPlugin (slots_at env st1)); [discriminate | reflexivity].
Qed.

Lemma loadWorkflowPlugin_record_witness :
  exists d st1 hooks settings,
    driverCreator workflow_only 0 "watch" sample_state = (Returned d, st1)
    /\ loadWorkflowPlugin d tt st1 = (Returned hooks, st1)
    /\ WorkflowHooks.get "dev" hooks
       = Some (WorkflowHooks.Object [("addToSettings", settings)])
    /\ WorkflowHooks.get "watchFilePatterns" settings
       = Some (WorkflowHooks.Patterns ["*.graphql"])
    /\ has_phase_keys hooks = true.
Proof.
  pose proof (loadWorkflowPlugin_record sample_host workflow_only 0 "watch"
                sample_state _ _ eq_refl tt
                (snd (driverCreator workflow_only 0 "watch" sample_state))) as W.
  eexists _, _, _, _. split; [reflexivity|].
  split; [exact (eq_trans (proj1 W) eq_refl)|].
  split; [reflexivity|]. split; [reflexivity|].
  refine (proj1 (proj2 (proj2 W)) _ _ eq_refl _).
  intros f Hf. injection Hf as <-.
  apply performing_keeps_phase_keys. constructor; [reflexivity | constructor].
Defined.

(** C3, as stated, fails for a driver whose registered workflow definer
    throws: the loader throws and returns no record.  It also fails for a
    definer that deletes a phase key from the object, against the type: the
    loader returns the object without that key. *)
Lemma loadWorkflowPlugin_throwing_counterexample :
  (exists creator st1 d st2,
      create workflow_throwing sample_state = (Returned creator, st1)
      /\ creator "faulty" st1 = (Returned d, st2)
      /\ loadWorkflowPlugin d tt st2 = (Thrown "boom", st2))
  /\ (exists creator st1 d st2 hooks,
        create workflow_deleting sample_state = (Returned creator, st1)
        /\ creator "careless" st1 = (Returned d, st2)
        /\ loadWorkflowPlugin d tt st2 = (Returned hooks, st2)
        /\ WorkflowHooks.has "dev" hooks = false).
Proof.
  split.
  - eexists _, _, _, _. split; [reflexivity|]. split; reflexivity.
  - eexists _, _, _, _, _. split; [reflexivity|]. split; [reflexivity|].
    split; reflexivity.
Qed.

(** ** Plugins that extend one lifecycle only *)


Lemma workflow_aggregation_skip {H : Host} layout plugins1 d plugins2 st :
  extendsWorkflow d = false ->
  workflow_aggregation layout (plugins1 ++ d :: plugins2) st
  = workflow_aggregation layout (plugins1 ++ plugins2) st.
Proof.
  intros Hflag. unfold workflow_aggregation, Array_filter.
  rewrite !List.filter_app. simpl. rewrite Hflag. reflexivity.
Qed.



(** ** Calling a loader twice *)

(** C9.  For a driver made by [create], a call of a loader leaves the
    closure variables as they were, whatever the plugin code does to the
    world (registered code that kept its lens and calls a registrar from
    inside a loader is outside the model).  When the
    registered workflow definer is a function of its arguments alone, two
    calls of [loadWorkflowPlugin] with the same layout, one after the other,
    have the same outcome, each from a fresh default record, and leave the
    state unchanged; likewise two calls of [loadRuntimePlugin] when the
    registered runtime producer is such a function. *)
Theorem loaders_are_repeatable
  (H : Host) (definer : Definer) env pluginName st0 d st1 :
  driverCreator definer env pluginName st0 = (Returned d, st1) ->
  forall layout st,
    (closures (snd (loadWorkflowPlugin d layout st)) = closures st
     /\ closures (snd (loadRuntimePlugin d st)) = closures st)
    /\ ((forall f,
            maybeWorkflowPlugin (slots_at env st) = Some f ->
            forall hooks context, pure (f hooks context)) ->
        exists o,
          loadWorkflowPlugin d layout st = (o, st)
          /\ loadWorkflowPlugin d layout (snd (loadWorkflowPlugin d layout st)) = (o, st)
          /\ (forall f,
                maybeWorkflowPlugin (slots_at env st) = Some f ->
                forall w, fst (f default_hooks {| layout := layout |} w) = o))
    /\ ((forall f, maybeRuntimePlugin (slots_at env st) = Some f -> pure f) ->
        exists o,
          loadRuntimePlugin d st = (o, st)
          /\ loadRuntimePlugin d (snd (loadRuntimePlugin d st)) = (o, st)).
Proof.
  intros Hrun layout st.
  destruct (driverCreator_Returned _ _ _ _ _ _ Hrun) as (_ & _ & _ & _ & Hwf & Hrt).
  rewrite Hwf, Hrt.
  split; [split; [apply create_loadWorkflowPlugin_closures
                 | apply create_loadRuntimePlugin_closures]|].
  split.
  - intros Hpure. rewrite !create_loadWorkflowPlugin_run.
    destruct (maybeWorkflowPlugin (slots_at env st)) as [f|] eqn:Hslot.
    + destruct (Hpure f eq_refl default_hooks {| layout := layout |}) as [o Ho].
      exists o.
      assert (forall s, run_plugin (f default_hooks {| layout := layout |}) s = (o, s))
        as Hany.
      { intros [cl w]. unfold run_plugin. simpl. rewrite Ho. reflexivity. }
      rewrite Hany. simpl. rewrite Hslot, Hany.
      split; [reflexivity|]. split; [reflexivity|].
      intros f' [= <-] w. rewrite Ho. reflexivity.
    + exists (Returned default_hooks). simpl. rewrite Hslot.
      split; [reflexivity|]. split; [reflexivity | discriminate].
  - intros Hpure. rewrite !create_loadRuntimePlugin_run.
    destruct (maybeRuntimePlugin (slots_at env st)) as [f|] eqn:Hslot.
    + destruct (Hpure f eq_refl) as [o Ho].
      assert (forall s, run_plugin f s = (o, s)) as Hany.
      { intros [cl w]. unfold run_plugin. simpl. rewrite Ho. reflexivity. }
      exists (match o with
              | Returned c => Returned (Some c)
              | Thrown e => Thrown e
              | Exited m => Exited m
              end).
      assert (forall s,
                 (let* c := run_plugin f in ret (Some c)) s
                 = (match o with
                    | Returned c => Returned (Some c)
                    | Thrown e => Thrown e
                    | Exited m => Exited m
                    end, s)) as Hload.
      { intros s. unfold bind. rewrite Hany. destruct o; reflexivity. }
      rewrite Hload. simpl. rewrite Hslot, Hload. split; reflexivity.
    + exists (Returned None). simpl. rewrite Hslot. split; reflexivity.
Qed.

Lemma loaders_are_repeatable_witness :
  exists d st1 o,
    driverCreator workflow_only 0 "watch" sample_state = (Returned d, st1)
    /\ loadWorkflowPlugin d tt st1 = (o, st1)
    /\ loadWorkflowPlugin d tt (snd (loadWorkflowPlugin d tt st1)) = (o, st1).
Proof.
  pose proof (loaders_are_repeatable sample_host workflow_only 0 "watch"
                sample_state _ _ eq_refl tt
                (snd (driverCreator workflow_only 0 "watch" sample_state))) as W.
  destruct (proj1 (proj2 W)) as (o & Hfirst & Hsecond & _).
  - intros f Hf hooks context. injection Hf as <-.
    apply performing_pure.
  - eexists _, _, o. split; [reflexivity|]. split; [exact Hfirst | exact Hsecond].
Defined.

(** * Further properties of the code *)

(** ** Failures of a loader during aggregation *)








(** ** Registering more than once *)

Lemma last_workflow_app {H : Host} before g after :
  registers_workflow after = false ->
  last_workflow (before ++ workflow g :: after) = Some g.
Proof.
  intros Hafter. rewrite <- last_workflow_registers in Hafter.
  induction before as [|r before IH]; simpl.
  - destruct (last_workflow after); [discriminate | reflexivity].
  - rewrite IH. reflexivity.
Qed.

Lemma last_runtime_app {H : Host} before g after :
  registers_runtime after = false ->
  last_runtime (before ++ runtime g :: after) = Some g.
Proof.
  intros Hafter. rewrite <- last_runtime_registers in Hafter.
  induction before as [|r before IH]; simpl.
  - destruct (last_runtime after); [discriminate | reflexivity].
  - rewrite IH. reflexivity.
Qed.

(** X3.  Within one run of a defining function the last call of each
    registrar wins: after the application the slot holds the function of
    the last [lens.workflow] call (of the last [lens.runtime] call), the flag
    is set and the loader of the returned driver runs that function; the
    earlier registrations of the run are dropped without an error.  A run
    that does not call a registrar leaves its slot as it was. *)
Theorem last_registration_wins
  (H : Host) (definer : Definer) env pluginName st d st' :
  driverCreator definer env pluginName st = (Returned d, st') ->
  let rs :=
    registrations (fst (definer {| debug := "plugin:" +:+ pluginName |} (world st))) in
  (forall before g after,
      rs = before ++ workflow g :: after ->
      registers_workflow after = false ->
      maybeWorkflowPlugin (slots_at env st') = Some g
      /\ extendsWorkflow d = true
      /\ forall layout,
          loadWorkflowPlugin d layout st'
          = run_plugin (g default_hooks {| layout := layout |}) st')
  /\ (forall before g after,
        rs = before ++ runtime g :: after ->
        registers_runtime after = false ->
        maybeRuntimePlugin (slots_at env st') = Some g
        /\ extendsRuntime d = true
        /\ loadRuntimePlugin d st' = (let* c := run_plugin g in ret (Some c)) st')
  /\ (registers_workflow rs = false ->
      maybeWorkflowPlugin (slots_at env st') = maybeWorkflowPlugin (slots_at env st))
  /\ (registers_runtime rs = false ->
      maybeRuntimePlugin (slots_at env st') = maybeRuntimePlugin (slots_at env st)).
Proof.
  intros Hrun rs.
  destruct (driverCreator_Returned _ _ _ _ _ _ Hrun)
    as (Hst & _ & Hw & Hr & Hloadw & Hloadr).
  assert (slots_at env st' = fold_left register rs (slots_at env st)) as Hslots
    by (rewrite Hst; apply applied_slots).
  split; [|split; [|split]].
  - intros before g after Hrs Hafter.
    assert (maybeWorkflowPlugin (slots_at env st') = Some g) as Hslot.
    { rewrite Hslots, fold_register_workflow, Hrs, last_workflow_app by exact Hafter.
      reflexivity. }
    split; [exact Hslot|]. split; [rewrite Hw, Hslot; reflexivity|].
    intros layout. rewrite Hloadw, create_loadWorkflowPlugin_run, Hslot. reflexivity.
  - intros before g after Hrs Hafter.
    assert (maybeRuntimePlugin (slots_at env st') = Some g) as Hslot.
    { rewrite Hslots, fold_register_runtime, Hrs, last_runtime_app by exact Hafter.
      reflexivity. }
    split; [exact Hslot|]. split; [rewrite Hr, Hslot; reflexivity|].
    rewrite Hloadr, create_loadRuntimePlugin_run, Hslot. reflexivity.
  - intros Hnone. rewrite Hslots, fold_register_workflow.
    rewrite <- last_workflow_registers in Hnone.
    destruct (last_workflow rs); [discriminate | reflexivity].
  - intros Hnone. rewrite Hslots, fold_register_runtime.
    rewrite <- last_runtime_registers in Hnone.
    destruct (last_runtime rs); [discriminate | reflexivity].
Qed.

Lemma last_registration_wins_witness :
  exists d st' hooks settings,
    driverCreator workflow_twice 0 "twice" sample_state = (Returned d, st')
    /\ loadWorkflowPlugin d tt st' = (Returned hooks, st')
    /\ WorkflowHooks.get "dev" hooks
       = Some (WorkflowHooks.Object [("addToSettings", settings)])
    /\ WorkflowHooks.get "watchFilePatterns" settings
       = Some (WorkflowHooks.Patterns ["*.graphql"]).
Proof.
  pose proof (last_registration_wins sample_host workflow_twice 0 "twice"
                sample_state _ _ eq_refl) as W.
  destruct (proj1 W [workflow throwing_definer] watch_definer [] eq_refl eq_refl)
    as (_ & _ & Hload).
  eexists _, _, _, _. split; [reflexivity|].
  split; [exact (eq_trans (Hload tt) eq_refl)|]. split; reflexivity.
Defined.

(** ** Drivers of one driver creator *)

(** X4.  All drivers that one driver creator returns share their loaders:
    the loaders read the slots of the creator when they are called, while the
    flags of a driver are the ones computed at its own application.  So the
    workflow loader of a driver handed out with [extendsWorkflow] false runs
    the definer that a later application of the same creator registered,
    although the workflow aggregation still passes over that driver. *)
Theorem drivers_of_a_creator_share_loaders
  (H : Host) (definer : Definer) env pluginName1 st d1 st1 pluginName2 st1' d2 st2 :
  driverCreator definer env pluginName1 st = (Returned d1, st1) ->
  driverCreator definer env pluginName2 st1' = (Returned d2, st2) ->
  (forall layout s, loadWorkflowPlugin d1 layout s = loadWorkflowPlugin d2 layout s)
  /\ (forall s, loadRuntimePlugin d1 s = loadRuntimePlugin d2 s)
  /\ (extendsWorkflow d1 = false -> extendsWorkflow d2 = true ->
      forall layout,
        (exists g,
            maybeWorkflowPlugin (slots_at env st2) = Some g
            /\ loadWorkflowPlugin d1 layout st2
               = run_plugin (g default_hooks {| layout := layout |}) st2)
        /\ forall s,
            workflow_aggregation layout [d1; d2] s
            = workflow_aggregation layout [d2] s).
Proof.
  intros Hrun1 Hrun2.
  destruct (driverCreator_Returned _ _ _ _ _ _ Hrun1) as (_ & _ & _ & _ & Hw1 & Hr1).
  destruct (driverCreator_Returned _ _ _ _ _ _ Hrun2) as (_ & _ & Hf2 & _ & Hw2 & Hr2).
  split; [intros; rewrite Hw1, Hw2; reflexivity|].
  split; [intros; rewrite Hr1, Hr2; reflexivity|].
  intros Hflag1 Hflag2 layout. split.
  - rewrite Hflag2 in Hf2.
    destruct (maybeWorkflowPlugin (slots_at env st2)) as [g|] eqn:Hslot; [|discriminate].
    exists g. split; [reflexivity|].
    rewrite Hw1, create_loadWorkflowPlugin_run, Hslot. reflexivity.
  - intros s. apply (workflow_aggregation_skip layout [] d1 [d2] s Hflag1).
Qed.

Lemma drivers_of_a_creator_share_loaders_witness :
  exists d1 st1 d2 st2 hooks settings,
    driverCreator workflow_later 0 "first" sample_state = (Returned d1, st1)
    /\ driverCreator workflow_later 0 "second" st1 = (Returned d2, st2)
    /\ extendsWorkflow d1 = false
    /\ loadWorkflowPlugin d1 tt st2 = (Returned hooks, st2)
    /\ WorkflowHooks.get "dev" hooks
       = Some (WorkflowHooks.Object [("addToSettings", settings)])
    /\ WorkflowHooks.get "watchFilePatterns" settings
       = Some (WorkflowHooks.Patterns ["*.graphql"]).
Proof.
  pose proof (drivers_of_a_creator_share_loaders sample_host workflow_later 0
                "first" sample_state _ _ "second"
                (snd (driverCreator workflow_later 0 "first" sample_state))
                _ _ eq_refl eq_refl) as W.
  destruct (proj1 (proj2 (proj2 W) eq_refl eq_refl tt)) as (g & Hslot & Hload).
  eexists _, _, _, _, _, _. split; [reflexivity|]. split; [reflexivity|].
  split; [reflexivity|].
  injection Hslot as <-.
  split; [exact (eq_trans Hload eq_refl)|]. split; reflexivity.
Defined.

(** ** What stays registered *)

Section Registered.
Context `{Host}.

Lemma slots_at_closures env st st' :
  closures st' = closures st -> slots_at env st' = slots_at env st.
Proof. unfold slots_at. intros ->. reflexivity. Qed.

Lemma create_keeps_cells (definer : Definer) env st s :
  closures st !! env = Some s ->
  closures (snd (create definer st)) !! env = Some s.
Proof.
  intros Hcell. simpl. rewrite lookup_insert_ne; [exact Hcell|].
  intros Heq. pose proof (fresh_env_free st) as Hfree.
  rewrite Heq in Hfree. congruence.
Qed.

Lemma create_keeps_slots (definer : Definer) env st :
  is_Some (closures st !! env) ->
  slots_at env (snd (create definer st)) = slots_at env st.
Proof.
  intros [s Hcell]. unfold slots_at.
  rewrite (create_keeps_cells definer env st s Hcell), Hcell. reflexivity.
Qed.

Lemma set_slot_is_a_cell env st :
  truthy (maybeWorkflowPlugin (slots_at env st)) = true
  \/ truthy (maybeRuntimePlugin (slots_at env st)) = true ->
  is_Some (closures st !! env).
Proof.
  unfold slots_at. destruct (closures st !! env) as [s|]; [eauto|].
  simpl. intros [|]; discriminate.
Qed.

Lemma application_keeps_workflow (definer : Definer) env' pluginName env st :
  truthy (maybeWorkflowPlugin (slots_at env st)) = true ->
  truthy (maybeWorkflowPlugin
            (slots_at env (snd (driverCreator definer env' pluginName st)))) = true.
Proof.
  intros Hset. rewrite driverCreator_state.
  destruct (decide (env = env')) as [->|Hne].
  - rewrite applied_slots, truthy_fold_workflow, Hset. apply orb_true_r.
  - unfold slots_at. rewrite applied_other by exact Hne. exact Hset.
Qed.

Lemma application_keeps_runtime (definer : Definer) env' pluginName env st :
  truthy (maybeRuntimePlugin (slots_at env st)) = true ->
  truthy (maybeRuntimePlugin
            (slots_at env (snd (driverCreator definer env' pluginName st)))) = true.
Proof.
  intros Hset. rewrite driverCreator_state.
  destruct (decide (env = env')) as [->|Hne].
  - rewrite applied_slots, truthy_fold_runtime, Hset. apply orb_true_r.
  - unfold slots_at. rewrite applied_other by exact Hne. exact Hset.
Qed.

Lemma evolves_keeps_workflow env st st' :
  evolves st st' ->
  truthy (maybeWorkflowPlugin (slots_at env st)) = true ->
  truthy (maybeWorkflowPlugin (slots_at env st')) = true.
Proof.
  induction 1 as [st|st st' definer _ IH|st st' definer env' pluginName _ IH
                 |st st' w _ IH]; intros Hset.
  - exact Hset.
  - rewrite create_keeps_slots; [apply IH; exact Hset|].
    apply set_slot_is_a_cell. left. apply IH. exact Hset.
  - apply application_keeps_workflow. apply IH. exact Hset.
  - apply IH. exact Hset.
Qed.

Lemma evolves_keeps_runtime env st st' :
  evolves st st' ->
  truthy (maybeRuntimePlugin (slots_at env st)) = true ->
  truthy (maybeRuntimePlugin (slots_at env st')) = true.
Proof.
  induction 1 as [st|st st' definer _ IH|st st' definer env' pluginName _ IH
                 |st st' w _ IH]; intros Hset.
  - exact Hset.
  - rewrite create_keeps_slots; [apply IH; exact Hset|].
    apply set_slot_is_a_cell. right. apply IH. exact Hset.
  - apply application_keeps_runtime. apply IH. exact Hset.
  - apply IH. exact Hset.
Qed.

Lemma create_loadRuntimePlugin_defined env st o st' :
  truthy (maybeRuntimePlugin (slots_at env st)) = true ->
  create_loadRuntimePlugin env st = (Returned o, st') ->
  exists c, o = Some c.
Proof.
  intros Hset. rewrite create_loadRuntimePlugin_run.
  destruct (maybeRuntimePlugin (slots_at env st)) as [f|]; [|discriminate].
  unfold bind, ret. destruct (run_plugin f st) as [[c|e|m] st1]; try discriminate.
  intros [= <- _]. eauto.
Qed.

Lemma issued_runtime d env st :
  issued d env st ->
  loadRuntimePlugin d = create_loadRuntimePlugin env
  /\ (extendsRuntime d = true ->
      truthy (maybeRuntimePlugin (slots_at env st)) = true).
Proof.
  intros (definer & pluginName & st0 & st1 & Hrun & Hlater).
  destruct (driverCreator_Returned _ _ _ _ _ _ Hrun) as (_ & _ & _ & Hr & _ & Hload).
  split; [exact Hload|]. intros Hflag.
  apply (evolves_keeps_runtime env st1 st Hlater). rewrite <- Hr. exact Hflag.
Qed.

Lemma visits_runtime_defined ds st cs st' :
  visits (fun d => loadRuntimePlugin d) ds st cs st' ->
  Forall
    (fun d =>
       exists env,
         loadRuntimePlugin d = create_loadRuntimePlugin env
         /\ truthy (maybeRuntimePlugin (slots_at env st)) = true) ds ->
  Forall (fun c => c <> None) cs /\ closures st' = closures st.
Proof.
  induction 1 as [st|d ds st c st1 cs st2 Hd _ IH]; intros Hall.
  - split; [constructor | reflexivity].
  - inversion Hall as [|d' ds' (env & Hload & Hset) Hrest]; subst.
    rewrite Hload in Hd.
    pose proof (create_loadRuntimePlugin_closures env st) as Hcl.
    rewrite Hd in Hcl. simpl in Hcl.
    destruct (create_loadRuntimePlugin_defined env st c st1 Hset Hd) as [x ->].
    destruct IH as [Hcs Hcl2].
    + eapply Forall_impl; [exact Hrest|]. simpl.
      intros a (env' & Hload' & Hset'). exists env'. split; [exact Hload'|].
      rewrite (slots_at_closures env' st st1 Hcl). exact Hset'.
    + split; [constructor; [discriminate | exact Hcs] | congruence].
Qed.

End Registered.

(** X5.  Once a slot of a driver creator is set it stays set: calls of
    [create], applications of any driver creator and plugin code never unset
    it.  So for a driver handed out with [extendsRuntime] true the runtime
    loader, whenever it returns later on, returns contributions and not the
    absent value; and for one handed out with [extendsWorkflow] true the
    workflow loader runs a registered definer. *)
Theorem registered_stays_registered
  (H : Host) (definer : Definer) env pluginName st0 d st1 st :
  driverCreator definer env pluginName st0 = (Returned d, st1) ->
  evolves st1 st ->
  (extendsWorkflow d = true ->
   exists f,
     maybeWorkflowPlugin (slots_at env st) = Some f
     /\ forall layout,
         loadWorkflowPlugin d layout st
         = run_plugin (f default_hooks {| layout := layout |}) st)
  /\ (extendsRuntime d = true ->
      (exists f, maybeRuntimePlugin (slots_at env st) = Some f)
      /\ forall o st',
          loadRuntimePlugin d st = (Returned o, st') -> exists c, o = Some c).
Proof.
  intros Hrun Hlater.
  destruct (driverCreator_Returned _ _ _ _ _ _ Hrun)
    as (_ & _ & Hw & Hr & Hloadw & Hloadr).
  split.
  - intros Hflag. rewrite Hflag in Hw. symmetry in Hw.
    pose proof (evolves_keeps_workflow env st1 st Hlater Hw) as Hset.
    destruct (maybeWorkflowPlugin (slots_at env st)) as [f|] eqn:Hslot; [|discriminate].
    exists f. split; [reflexivity|]. intros layout.
    rewrite Hloadw, create_loadWorkflowPlugin_run, Hslot. reflexivity.
  - intros Hflag. rewrite Hflag in Hr. symmetry in Hr.
    pose proof (evolves_keeps_runtime env st1 st Hlater Hr) as Hset.
    split.
    + destruct (maybeRuntimePlugin (slots_at env st)) as [f|]; [eauto | discriminate].
    + intros o st'. rewrite Hloadr. apply create_loadRuntimePlugin_defined. exact Hset.
Qed.

Lemma registered_stays_registered_witness :
  exists d st1 st,
    driverCreator runtime_only 0 "prisma" sample_state = (Returned d, st1)
    /\ evolves st1 st
    /\ exists f, maybeRuntimePlugin (slots_at 0 st) = Some f.
Proof.
  eexists _, _, _. split; [reflexivity|].
  assert (evolves (snd (driverCreator runtime_only 0 "prisma" sample_state))
            (snd (driverCreator defective 0 "other"
                    (snd (create workflow_only
                            (snd (driverCreator runtime_only 0 "prisma" sample_state)))))))
    as Hlater by (apply evolves_apply, evolves_create, evolves_refl).
  split; [exact Hlater|].
  apply (proj2 (registered_stays_registered sample_host runtime_only 0 "prisma"
                  sample_state _ _ _ eq_refl Hlater) eq_refl).
Defined.

(** X6.  The non-null assertion on the result of [loadRuntimePlugin] in
    the runtime aggregation holds for drivers made by [create]: when every
    driver of the list was returned by an application of a driver creator
    before the aggregation starts, a runtime aggregation that returns holds
    no absent value. *)
Theorem runtime_aggregation_is_defined (H : Host) plugins st contributions st' :
  Forall (fun d => exists env, issued d env st) plugins ->
  __doLoadAllRuntimePluginsFromPackageJson plugins st = (Returned contributions, st') ->
  Forall (fun c => c <> None) contributions.
Proof.
  intros Hissued Hagg. apply runtime_aggregation_Returned in Hagg.
  refine (proj1 (visits_runtime_defined _ _ _ _ Hagg _)).
  unfold Array_filter. apply List.Forall_forall. intros d Hin.
  apply List.filter_In in Hin as [Hin Hflag].
  rewrite List.Forall_forall in Hissued. destruct (Hissued d Hin) as [env Hd].
  destruct (issued_runtime d env st Hd) as [Hload Hset].
  exists env. split; [exact Hload | apply Hset; exact Hflag].
Qed.

Lemma runtime_aggregation_is_defined_witness :
  driverCreator runtime_only 0 "prisma" sample_state
  = (Returned prisma_driver, prisma_state)
  /\ __doLoadAllRuntimePluginsFromPackageJson [prisma_driver] prisma_state
     = (Returned [Some sample_contributions], prisma_state)
  /\ Forall (fun c => c <> None) [Some sample_contributions].
Proof.
  split; [reflexivity|]. split; [reflexivity|].
  refine (runtime_aggregation_is_defined sample_host [prisma_driver]
            prisma_state [Some sample_contributions] prisma_state _ eq_refl).
  constructor; [|constructor].
  exists 0, runtime_only, "prisma", sample_state, prisma_state.
  split; [reflexivity | apply evolves_refl].
Defined.

(** ** From the name back to the identifier *)

Lemma no_line_terminator_app a b :
  no_line_terminator (a +:+ b) = no_line_terminator a && no_line_terminator b.
Proof.
  induction a as [|c a IH]; [reflexivity|].
  rewrite append_String. simpl. rewrite IH. apply andb_assoc.
Qed.

Lemma at_line_end_clean rest :
  at_line_end rest -> no_line_terminator rest = true -> rest = EmptyString.
Proof.
  destruct rest as [|c rest]; [reflexivity|]. simpl. intros ->. discriminate.
Qed.

(** X8.  On identifiers without line terminators [parsePluginName] is
    undone by putting the prefix back: a parsed identifier is the prefix
    followed by the name, so two such identifiers with the same name are the
    same identifier.  For any identifier, the prefix followed by the parsed
    name parses to that name again.  With a line terminator two identifiers
    can share a name. *)
Theorem parsePluginName_round_trip :
  (forall packageName pluginName,
      parsePluginName packageName = Some pluginName ->
      no_line_terminator packageName = true ->
      packageName = plugin_prefix +:+ pluginName)
  /\ (forall packageName pluginName,
        parsePluginName packageName = Some pluginName ->
        parsePluginName (plugin_prefix +:+ pluginName) = Some pluginName)
  /\ (forall packageName1 packageName2 pluginName,
        parsePluginName packageName1 = Some pluginName ->
        parsePluginName packageName2 = Some pluginName ->
        no_line_terminator packageName1 = true ->
        no_line_terminator packageName2 = true ->
        packageName1 = packageName2)
  /\ (parsePluginName (plugin_prefix +:+ String "a" (String LF "b"))
      = parsePluginName (plugin_prefix +:+ "a")).
Proof.
  assert (forall packageName pluginName,
             parsePluginName packageName = Some pluginName ->
             no_line_terminator packageName = true ->
             packageName = plugin_prefix +:+ pluginName) as Hback.
  { intros packageName pluginName Hparse Hclean.
    apply parsePluginName_Some in Hparse as (rest & -> & _ & _ & Hrest).
    rewrite !no_line_terminator_app in Hclean.
    apply andb_prop in Hclean as [_ Hclean]. apply andb_prop in Hclean as [_ Hclean].
    rewrite (at_line_end_clean rest Hrest Hclean), append_empty_r. reflexivity. }
  split; [exact Hback|]. split.
  { intros packageName pluginName Hparse.
    apply parsePluginName_Some in Hparse as (rest & _ & Hne & Hclean & _).
    apply parsePluginName_Some. exists EmptyString.
    rewrite append_empty_r. repeat split; assumption. }
  split; [|reflexivity].
  intros packageName1 packageName2 pluginName H1 H2 Hc1 Hc2.
  rewrite (Hback _ _ H1 Hc1), (Hback _ _ H2 Hc2). reflexivity.
Qed.

(** ** A [dependencies] that is not an object *)

(** X9.  When the manifest's [dependencies] is not an object (it is absent
    or [null], a number, a boolean, a string or an array, whose keys are
    indices), no identifier matches: the load returns the empty driver list
    without resolving any module. *)
Theorem non_object_dependencies_load_nothing (H : Host) require packageJson st :
  (forall props, get_dependencies packageJson <> Some (JObject props)) ->
  pumpkinsPluginDepNames packageJson = []
  /\ __doLoadAllFromPackageJson require (Some packageJson) st = (Returned [], st).
Proof.
  intros Hnot.
  assert (pumpkinsPluginDepNames packageJson = []) as Hnames.
  { unfold pumpkinsPluginDepNames.
    destruct (get_dependencies packageJson) as [[| | | | |props]|]; simpl;
      try reflexivity; try apply index_keys_no_match.
    destruct (Hnot props eq_refl). }
  split; [exact Hnames|].
  rewrite __doLoadAllFromPackageJson_names, Hnames. reflexivity.
Qed.

Lemma non_object_dependencies_load_nothing_witness :
  __doLoadAllFromPackageJson sample_require
    (Some (JObject
             [("dependencies",
                JArray [JString "pumpkins-plugin-prisma"; JString "pumpkins-plugin-watch"])]))
    sample_state
  = (Returned [], sample_state).
Proof.
  apply (non_object_dependencies_load_nothing sample_host sample_require
           (JObject
              [("dependencies",
                 JArray [JString "pumpkins-plugin-prisma";
                         JString "pumpkins-plugin-watch"])])
           sample_state).
  intros props. discriminate.
Defined.

(** ** Two driver creators *)

(** X10.  Two calls of [create] give driver creators on different cells:
    the second call leaves the slots of the first as they were, and an
    application of either creator leaves the slots of the other untouched.
    A driver of the first creator, applied after the second creator was
    created and applied, has the flags of its own registrations. *)
Theorem creators_are_independent (H : Host) (definer1 definer2 : Definer) st :
  let env1 := fresh_env st in
  let st1 := snd (create definer1 st) in
  let env2 := fresh_env st1 in
  let st2 := snd (create definer2 st1) in
  env1 <> env2
  /\ slots_at env1 st2 = unset
  /\ slots_at env2 st2 = unset
  /\ (forall (definer : Definer) pluginName s,
        slots_at env1 (snd (driverCreator definer env2 pluginName s)) = slots_at env1 s
        /\ slots_at env2 (snd (driverCreator definer env1 pluginName s))
           = slots_at env2 s)
  /\ (forall pluginName2 pluginName1 d1 s1,
        driverCreator definer1 env1 pluginName1
          (snd (driverCreator definer2 env2 pluginName2 st2))
        = (Returned d1, s1) ->
        let call :=
          fst (definer1 {| debug := "plugin:" +:+ pluginName1 |}
                 (world (snd (driverCreator definer2 env2 pluginName2 st2)))) in
        extendsWorkflow d1 = registers_workflow (registrations call)
        /\ extendsRuntime d1 = registers_runtime (registrations call)).
Proof.
  intros env1 st1 env2 st2.
  assert (closures st1 !! env1 = Some unset) as Hcell1
    by (subst st1 env1; simpl; apply lookup_insert_eq).
  assert (env1 <> env2) as Hne.
  { intros Heq. pose proof (fresh_env_free st1) as Hfree.
    fold env2 in Hfree. rewrite <- Heq in Hfree. congruence. }
  assert (slots_at env1 st2 = unset) as Hslots1.
  { unfold slots_at. subst st2.
    rewrite (create_keeps_cells definer2 env1 st1 unset Hcell1). reflexivity. }
  assert (forall (definer : Definer) e e' pluginName s,
             e <> e' ->
             slots_at e (snd (driverCreator definer e' pluginName s)) = slots_at e s)
    as Hframe.
  { intros definer e e' pluginName s Hee. rewrite driverCreator_state.
    unfold slots_at. rewrite applied_other by exact Hee. reflexivity. }
  split; [exact Hne|]. split; [exact Hslots1|].
  split; [subst st2 env2; apply slots_at_set|].
  split.
  { intros definer pluginName s. split; apply Hframe; congruence. }
  intros pluginName2 pluginName1 d1 s1 Hrun call.
  destruct (driverCreator_flags _ _ _ _ _ _ Hrun) as [Hw Hr].
  rewrite Hframe, Hslots1 in Hw, Hr by exact Hne. simpl in Hw, Hr.
  rewrite orb_false_r in Hw, Hr. split; assumption.
Qed.

Lemma creators_are_independent_witness :
  fresh_env sample_state <> fresh_env (snd (create runtime_only sample_state))
  /\ slots_at (fresh_env sample_state)
       (snd (create workflow_only (snd (create runtime_only sample_state))))
     = unset.
Proof.
  pose proof (creators_are_independent sample_host runtime_only workflow_only
                sample_state) as W.
  split; [exact (proj1 W) | exact (proj1 (proj2 W))].
Defined.

(** ** Names of the loaded drivers *)

Lemma visits_Forall2_with {H : Host} {A B} (P : A -> Prop) (f : A -> M B) xs st ys st' :
  visits f xs st ys st' ->
  Forall P xs ->
  Forall2 (fun x y => P x /\ exists s s', f x s = (Returned y, s')) xs ys.
Proof.
  induction 1 as [st|x xs st y st1 ys st2 Hx _ IH]; intros Hall; [constructor|].
  inversion Hall; subst. constructor; [eauto | apply IH; assumption].
Qed.

(** X11.  When the [create] export of every module the load resolves was
    made by this module's [create], each driver the load returns is named
    after its identifier: its name is what [parsePluginName] gives for the
    identifier at the same position of the manifest, which is never the
    no-match value, is not empty and holds no line terminator. *)
Theorem drivers_are_named_after_their_identifiers
  (H : Host) require packageJson st drivers st' :
  (forall depName s SomePlugin s' creator,
      In depName (pumpkinsPluginDepNames packageJson) ->
      require depName s = (Returned SomePlugin, s') ->
      SomePlugin = PluginPackage.Exporting (PluginPackage.Function creator) ->
      exists (definer : Definer) env, creator = driverCreator definer env) ->
  __doLoadAllFromPackageJson require (Some packageJson) st = (Returned drivers, st') ->
  Forall2
    (fun depName driver => parsePluginName depName = Some (name driver))
    (pumpkinsPluginDepNames packageJson) drivers
  /\ Forall
       (fun driver =>
          name driver <> EmptyString /\ no_line_terminator (name driver) = true)
       drivers.
Proof.
  intros Hmade Hload.
  rewrite __doLoadAllFromPackageJson_names in Hload.
  apply Array_map_Returned in Hload.
  apply (visits_Forall2_with
           (fun depName => In depName (pumpkinsPluginDepNames packageJson))) in Hload;
    [|apply List.Forall_forall; auto].
  assert (Forall2
            (fun depName driver => parsePluginName depName = Some (name driver))
            (pumpkinsPluginDepNames packageJson) drivers) as Hnames.
  { eapply Forall2_impl; [exact Hload|]. simpl.
    intros depName driver (Hin & s & s' & Hinst).
    apply instantiate_Returned in Hinst as (s1 & creator & Hreq & Hcall).
    destruct (Hmade _ _ _ _ _ Hin Hreq eq_refl) as (definer & env & ->).
    destruct (driverCreator_Returned _ _ _ _ _ _ Hcall) as (_ & -> & _).
    destruct (pumpkinsPluginDepNames_keys _ _ Hin) as [_ [pluginName ->]].
    reflexivity. }
  split; [exact Hnames|].
  clear Hload Hmade.
  induction Hnames as [|depName driver names ds Hname _ IH]; [constructor|].
  constructor; [|exact IH].
  apply parsePluginName_Some in Hname as (rest & _ & Hne & Hclean & _).
  split; assumption.
Qed.

Lemma drivers_are_named_after_their_identifiers_witness :
  match __doLoadAllFromPackageJson (fun _ => module_exporting runtime_only)
          (Some sample_manifest) sample_state with
  | (Returned drivers, _) =>
      Forall2 (fun depName driver => parsePluginName depName = Some (name driver))
        ["pumpkins-plugin-prisma"; "pumpkins-plugin-watch"] drivers
  | _ => False
  end.
Proof.
  destruct (__doLoadAllFromPackageJson (fun _ => module_exporting runtime_only)
              (Some sample_manifest) sample_state) as [o st'] eqn:Hload.
  assert (exists drivers, o = Returned drivers) as [drivers ->].
  { apply (f_equal fst) in Hload. vm_compute in Hload. subst o. eauto. }
  refine (proj1 (drivers_are_named_after_their_identifiers sample_host
                   (fun _ => module_exporting runtime_only) sample_manifest
                   sample_state drivers st' _ Hload)).
  intros depName s SomePlugin s' creator _ Hreq Hcreate.
  unfold module_exporting, bind, create, ret in Hreq.
  injection Hreq as <- _. injection Hcreate as <-.
  eexists _, _. reflexivity.
Defined.

